(** * Weather and web-search workflows: a shallow embedding and its properties

    The development follows the workflows module (two Mastra workflows of
    two steps each).  JavaScript numbers are IEEE-754 binary64 values and are
    embedded as Rocq's primitive floats; the operations the steps apply to
    them ([Math.max], [Math.min], [Array.prototype.reduce]) only compare, so
    every statement below is exact.  Strings are [string]; a JavaScript object
    used as a lookup table is a [gmap]; thrown exceptions are values of
    [JsError]; calls to the outside world (HTTP, agents, console, clock) go
    through an environment of oracles and are recorded in an event log. *)

From Stdlib Require Import Floats ZArith List Bool Ascii String Lia.
From stdpp Require Import base option list strings gmap.
Import ListNotations.

Local Open Scope string_scope.
Local Open Scope Z_scope.
Local Open Scope list_scope.

(** ** Part I: definitions *)

(** *** JavaScript numbers and the [Math] built-ins *)

Abbreviation number := float (only parsing).

Definition is_pos_zero (x : number) : bool :=
  match classify x with PZero => true | _ => false end.

Definition is_neg_zero (x : number) : bool :=
  match classify x with NZero => true | _ => false end.

Module Math.

(** [Math.max(...args)], ECMA-262 21.3.2.24: start from -Infinity; a NaN
    argument makes the result NaN; +0 is larger than -0. *)
Fixpoint max_loop (highest : number) (coerced : list number) : number :=
  match coerced with
  | [] => highest
  | num :: rest =>
      if is_nan num then nan
      else
        let highest :=
          if is_pos_zero num && is_neg_zero highest then 0%float else highest in
        let highest := if (highest <? num)%float then num else highest in
        max_loop highest rest
  end.

Definition max (args : list number) : number := max_loop neg_infinity args.

(** [Math.min(...args)], ECMA-262 21.3.2.25: start from +Infinity; a NaN
    argument makes the result NaN; -0 is smaller than +0. *)
Fixpoint min_loop (lowest : number) (coerced : list number) : number :=
  match coerced with
  | [] => lowest
  | num :: rest =>
      if is_nan num then nan
      else
        let lowest :=
          if is_neg_zero num && is_pos_zero lowest then (-0)%float else lowest in
        let lowest := if (num <? lowest)%float then num else lowest in
        min_loop lowest rest
  end.

Definition min (args : list number) : number := min_loop infinity args.

End Math.

(** [arr.reduce(f, init)]: a left fold over the array. *)
Definition reduce {A B : Type} (f : B -> A -> B) (init : B) (arr : list A) : B :=
  fold_left f arr init.

(** Truthiness of a string-valued operand that may be [undefined]:
    [undefined] and the empty string are falsy. *)
Definition truthy (v : option string) : bool :=
  match v with
  | Some (String _ _) => true
  | _ => false
  end.

(** [a || b] where [a] is a string or [undefined] and [b] is a string. *)
Definition or_else (a : option string) (b : string) : string :=
  match a with
  | Some s => if truthy a then s else b
  | None => b
  end.

(** *** The weather-code table *)

(** The mathematical value of a number when that value is an integer:
    [None] for NaN, the infinities and numbers with a fractional part. *)
Definition integer_value (x : number) : option Z :=
  match Prim2SF x with
  | S754_zero _ => Some 0
  | S754_finite s m e =>
      if 0 <=? e then Some (cond_Zopp s (Z.pos m * 2 ^ e))
      else if Z.pos m mod 2 ^ (- e) =? 0
           then Some (cond_Zopp s (Z.pos m / 2 ^ (- e)))
           else None
  | S754_infinity _ | S754_nan => None
  end.

(** The object literal of [getWeatherCondition].  Its property keys are the
    canonical decimal spellings of the integers listed, and [conditions[code]]
    converts [code] to its canonical spelling first: the lookup finds a
    property exactly when [code] has the integer value of a key. *)
Definition conditions_entries : list (Z * string) :=
  [ (0, "Clear sky");
    (1, "Mainly clear");
    (2, "Partly cloudy");
    (3, "Overcast");
    (45, "Foggy");
    (48, "Depositing rime fog");
    (51, "Light drizzle");
    (53, "Moderate drizzle");
    (55, "Dense drizzle");
    (61, "Slight rain");
    (63, "Moderate rain");
    (65, "Heavy rain");
    (71, "Slight snow fall");
    (73, "Moderate snow fall");
    (75, "Heavy snow fall");
    (95, "Thunderstorm") ].

Definition conditions : gmap Z string := list_to_map conditions_entries.

(** [conditions[code]]: [None] stands for [undefined]. *)
Definition conditions_at (code : number) : option string :=
  match integer_value code with
  | Some n => conditions !! n
  | None => None
  end.

Definition getWeatherCondition (code : number) : string :=
  or_else (conditions_at code) "Unknown".

(** *** Exceptions, the outside world and the run monad *)

(** [throw new Error(message)], and the rejections of the awaited calls. *)
Inductive JsError : Type :=
  | Error (message : string).

(** What a run does to the outside world, in the order it does it. *)
Inductive Event : Type :=
  | StepStart (id : string)
  | Fetch (url : string)
  | AgentStream (agent : string) (content : string)
  | AgentGenerate (agent : string) (content : string)
  | StdoutWrite (chunk : string)
  | ConsoleLog (line : string).

Record GeoCandidate : Type := {
  latitude : number;
  longitude : number;
  name : string;
}.

(** The body of the geocoding response; [results] may be missing. *)
Record GeocodingData : Type := {
  results : option (list GeoCandidate);
}.

Record Current : Type := {
  time : string;
  precipitation : number;
  weathercode : number;
}.

Record Hourly : Type := {
  precipitation_probability : list number;
  temperature_2m : list number;
}.

Record WeatherData : Type := {
  current : Current;
  hourly : Hourly;
}.

(** [forecastSchema]. *)
Record Forecast : Type := {
  date : string;
  maxTemp : number;
  minTemp : number;
  precipitationChance : number;
  condition : string;
  location : string;
}.

Record CityInput : Type := { city : string }.

Record Activities : Type := { activities : string }.

Module SearchInput.
Record t : Type := { query : string; focus : option string }.
End SearchInput.

Module SearchResult.
Record t : Type := {
  searchResults : string;
  query : string;
  focus : option string;
}.
End SearchResult.

(** The built-ins whose result the steps only pass on, and the services the
    steps call.  An awaited call either rejects or resolves. *)
Record Env : Type := {
  encodeURIComponent : string -> string;
  Number_toString : number -> string;
  JSON_stringify : Forecast -> string;
  (** [new Date().toISOString()], read when the forecast is built *)
  Date_toISOString : string;
  (** [await fetch(url)] followed by [await response.json()] *)
  fetch_geocoding : string -> JsError + GeocodingData;
  fetch_forecast : string -> JsError + WeatherData;
  (** [agent.stream(...)]: the fragments of [response.textStream], in order *)
  agent_stream : string -> JsError + list string;
  webSearchAgent_stream : string -> JsError + list string;
  (** [webSearchAgent.generate(...)]: [response.text] *)
  webSearchAgent_generate : string -> JsError + string;
}.

(** An async computation: it reads the environment, appends to the event
    log, and either throws or returns. *)
Definition Run (A : Type) : Type :=
  Env -> list Event -> (JsError + A) * list Event.

#[global] Instance Run_ret : MRet Run :=
  fun A a _ log => (inr a, log).

#[global] Instance Run_bind : MBind Run :=
  fun A B k m env log =>
    match m env log with
    | (inl e, log') => (inl e, log')
    | (inr a, log') => k a env log'
    end.

Definition throw {A : Type} (e : JsError) : Run A :=
  fun _ log => (inl e, log).

Definition emit (ev : Event) : Run unit :=
  fun _ log => (inr tt, log ++ [ev]).

Definition builtin {A : Type} (f : Env -> A) : Run A :=
  fun env log => (inr (f env), log).

(** An awaited call to a service: the call is logged, then it rejects or
    resolves. *)
Definition await {A : Type} (ev : Event) (f : Env -> JsError + A) : Run A :=
  fun env log => (f env, log ++ [ev]).

(** [`${v}`] for a string that may be [undefined]. *)
Definition interpolate (v : option string) : string :=
  match v with
  | Some s => s
  | None => "undefined"
  end.

(** *** Workflow A: weather to activities *)

Definition geocodingUrl (env : Env) (city : string) : string :=
  "https://geocoding-api.open-meteo.com/v1/search?name="
  +:+ encodeURIComponent env city +:+ "&count=1".

Definition weatherUrl (env : Env) (latitude longitude : number) : string :=
  "https://api.open-meteo.com/v1/forecast?latitude=" +:+ Number_toString env latitude
  +:+ "&longitude=" +:+ Number_toString env longitude
  +:+ "&current=precipitation,weathercode&timezone=auto,&hourly=precipitation_probability,temperature_2m".

Definition fetchWeather_execute (inputData : option CityInput) : Run Forecast :=
  match inputData with
  | None => throw (Error "Input data not found")
  | Some inputData =>
      geocodingUrl ← builtin (fun env => geocodingUrl env (city inputData));
      geocodingData ← await (Fetch geocodingUrl) (fun env => fetch_geocoding env geocodingUrl);
      match results geocodingData with
      | Some (first :: _) =>
          let '(latitude, longitude, name) :=
            (latitude first, longitude first, name first) in
          weatherUrl ← builtin (fun env => weatherUrl env latitude longitude);
          data ← await (Fetch weatherUrl) (fun env => fetch_forecast env weatherUrl);
          now ← builtin Date_toISOString;
          let forecast :=
            {| date := now;
               maxTemp := Math.max (temperature_2m (hourly data));
               minTemp := Math.min (temperature_2m (hourly data));
               condition := getWeatherCondition (weathercode (current data));
               precipitationChance :=
                 reduce (fun acc curr => Math.max [acc; curr]) 0%float
                        (precipitation_probability (hourly data));
               location := city inputData |} in
          mret forecast
      | _ => throw (Error ("Location '" +:+ city inputData +:+ "' not found"))
      end
  end.

(** [for await (const chunk of textStream) { process.stdout.write(chunk);
    activitiesText += chunk; }] *)
Fixpoint for_await_chunks (textStream : list string) (activitiesText : string)
  : Run string :=
  match textStream with
  | [] => mret activitiesText
  | chunk :: rest =>
      emit (StdoutWrite chunk);;
      for_await_chunks rest (activitiesText +:+ chunk)
  end.

Definition activitiesPrompt (env : Env) (forecast : Forecast) : string :=
  "Based on the following weather forecast for " +:+ location forecast
  +:+ ", suggest appropriate activities:
      " +:+ JSON_stringify env forecast +:+ "
      ".

Definition planActivities_execute (inputData : option Forecast) : Run Activities :=
  let forecast := inputData in
  match forecast with
  | None => throw (Error "Forecast data not found")
  | Some forecast =>
      prompt ← builtin (fun env => activitiesPrompt env forecast);
      textStream ← await (AgentStream "Weather Agent" prompt)
                         (fun env => agent_stream env prompt);
      activitiesText ← for_await_chunks textStream EmptyString;
      mret {| activities := activitiesText |}
  end.

(** *** Workflow B: web search to activities *)

Definition searchQuery (inputData : SearchInput.t) : string :=
  if truthy (SearchInput.focus inputData)
  then SearchInput.query inputData +:+ " "
       +:+ interpolate (SearchInput.focus inputData)
       +:+ " current information activities attractions events"
  else SearchInput.query inputData
       +:+ " current activities attractions events what to do".

Definition searchContent (searchQuery : string) : string :=
  "Search for current information about: " +:+ searchQuery +:+ "
        
Please use web search to find the most up-to-date information and provide a comprehensive summary of what you discover.".

Definition webSearchInfo_execute (inputData : option SearchInput.t)
  : Run SearchResult.t :=
  match inputData with
  | None => throw (Error "Input data not found")
  | Some inputData =>
      let searchQuery := searchQuery inputData in
      emit (ConsoleLog ("🔍 Searching for: " +:+ searchQuery));;
      let content := searchContent searchQuery in
      text ← await (AgentGenerate "Web Search Activity Planner" content)
                   (fun env => webSearchAgent_generate env content);
      mret {| SearchResult.searchResults := text;
              SearchResult.query := SearchInput.query inputData;
              SearchResult.focus := SearchInput.focus inputData |}
  end.

Definition webSearchPrompt (inputData : SearchResult.t) : string :=
  "Based on the web search findings below, create a detailed activity plan:

" +:+ SearchResult.searchResults inputData +:+ "

Please create a comprehensive activity plan using the structured format in your instructions. Make sure to incorporate the specific, current information you found through web search.".

Definition planWebSearchActivities_execute (inputData : option SearchResult.t)
  : Run Activities :=
  match inputData with
  | None => throw (Error "Search results not found")
  | Some inputData =>
      emit (ConsoleLog ("🎯 Planning activities for: " +:+ SearchResult.query inputData));;
      let prompt := webSearchPrompt inputData in
      textStream ← await (AgentStream "Web Search Activity Planner" prompt)
                         (fun env => webSearchAgent_stream env prompt);
      activitiesText ← for_await_chunks textStream EmptyString;
      mret {| activities := activitiesText |}
  end.

(** *** Steps and workflows *)

(** [createStep({ id, description, execute, ... })]; the input and output
    schemas are the types [A] and [B]. *)
Record Step (A B : Type) : Type := {
  id : string;
  description : string;
  execute : option A -> Run B;
}.
Arguments id {A B} _.
Arguments description {A B} _.
Arguments execute {A B} _ _.

Definition fetchWeather : Step CityInput Forecast :=
  {| id := "fetch-weather";
     description := "Fetches weather forecast for a given city";
     execute := fetchWeather_execute |}.

Definition planActivities : Step Forecast Activities :=
  {| id := "plan-activities";
     description := "Suggests activities based on weather conditions";
     execute := planActivities_execute |}.

Definition webSearchInfo : Step SearchInput.t SearchResult.t :=
  {| id := "web-search-info";
     description := "Uses web search to gather current information about a location/topic";
     execute := webSearchInfo_execute |}.

Definition planWebSearchActivities : Step SearchResult.t Activities :=
  {| id := "plan-web-search-activities";
     description := "Plans activities based on web search findings";
     execute := planWebSearchActivities_execute |}.

(** Modelled from the spec: the pipeline runner, which is the workflow engine
    of the Mastra library and not part of these sources.  Section 4.1: the
    runner invokes the steps in declared order, hands each step's output to
    the next step as its input, and a failing step aborts the run at once,
    so that no later step executes and only the error is returned.  The
    shape contracts are the Rocq types of the steps.  The runner's
    invocation of a step is logged as [StepStart]. *)
Definition run_step {A B : Type} (s : Step A B) (input : A) : Run B :=
  emit (StepStart (id s));;
  execute s (Some input).

(** Modelled from the spec: [workflow.then(step)], see [run_step]. *)
Definition then_ {A B C : Type} (w : A -> Run B) (s : Step B C) : A -> Run C :=
  fun input => output ← w input; run_step s output.

(** Modelled from the spec: [createWorkflow({...})], the pipeline with no
    step yet. *)
Definition createWorkflow {A : Type} : A -> Run A := mret.

Definition weatherWorkflow : CityInput -> Run Activities :=
  then_ (then_ createWorkflow fetchWeather) planActivities.

Definition webSearchWorkflow : SearchInput.t -> Run Activities :=
  then_ (then_ createWorkflow webSearchInfo) planWebSearchActivities.

(** A run from the empty log. *)
Definition run {A B : Type} (w : A -> Run B) (env : Env) (input : A)
  : (JsError + B) * list Event :=
  w input env [].

(** *** The vocabulary of the specification *)

(** No reading is NaN (JSON has no spelling for NaN, so the arrays of a
    parsed response satisfy this). *)
Definition no_NaN (l : list number) : bool :=
  forallb (fun x => negb (is_nan x)) l.

(** [v] is the maximum of the readings [l]: it equals one of them and none
    exceeds it.  Equality and order are those of the numbers ([===], [<=]). *)
Definition is_maximum (v : number) (l : list number) : bool :=
  existsb (fun x => (x =? v)%float) l && forallb (fun x => (x <=? v)%float) l.

Definition is_minimum (v : number) (l : list number) : bool :=
  existsb (fun x => (x =? v)%float) l && forallb (fun x => (v <=? x)%float) l.

(** The fragments of a stream, concatenated in the order of arrival. *)
Definition concatenation (fragments : list string) : string :=
  fold_right String.append EmptyString fragments.

(** The failure the specification calls [NotFoundError]. *)
Definition NotFoundError (city : string) : JsError :=
  Error ("Location '" +:+ city +:+ "' not found").

(** The search phrase as the specification words it: the query, the focus
    when there is one, and one fixed boilerplate. *)
Definition boilerplate : string :=
  "current information activities attractions events".

Definition claimed_searchQuery (q : string) (f : option string) : string :=
  match f with
  | Some f => q +:+ " " +:+ f +:+ " " +:+ boilerplate
  | None => q +:+ " " +:+ boilerplate
  end.

(** The geocoding lookup answers [city] with [first] as its first candidate
    and the weather provider answers the coordinates of [first] with [data]. *)
Definition serves (env : Env) (city : string) (first : GeoCandidate)
    (data : WeatherData) : Prop :=
  (exists rest, fetch_geocoding env (geocodingUrl env city)
                = inr {| results := Some (first :: rest) |})
  /\ fetch_forecast env (weatherUrl env (latitude first) (longitude first)) = inr data.

(** The geocoding lookup answers [city] with no candidate. *)
Definition no_candidate (env : Env) (city : string) : Prop :=
  fetch_geocoding env (geocodingUrl env city) = inr {| results := None |}
  \/ fetch_geocoding env (geocodingUrl env city) = inr {| results := Some [] |}.

(** *** Sample environments *)

Definition sample_data (stamp : string) (temps probs : list number) : WeatherData :=
  {| current := {| time := stamp; precipitation := 0%float; weathercode := 61%float |};
     hourly := {| precipitation_probability := probs; temperature_2m := temps |} |}.

Definition sample_env (found : option (list GeoCandidate)) (data : WeatherData)
    (chunks : list string) : Env :=
  {| encodeURIComponent := fun s => s;
     Number_toString := fun _ => "0";
     JSON_stringify := fun f => location f;
     Date_toISOString := "2025-06-01T12:00:00.000Z";
     fetch_geocoding := fun _ => inr {| results := found |};
     fetch_forecast := fun _ => inr data;
     agent_stream := fun _ => inr chunks;
     webSearchAgent_stream := fun _ => inr chunks;
     webSearchAgent_generate := fun _ => inr "findings" |}.

(** The log of a successful fetch-weather step under a sample environment. *)
Definition sample_log (city : string) (first : GeoCandidate) : list Event :=
  [Fetch ("https://geocoding-api.open-meteo.com/v1/search?name=" +:+ city +:+ "&count=1");
   Fetch (weatherUrl (sample_env None (sample_data "t" [] []) [])
                     (latitude first) (longitude first))].

Definition paris : GeoCandidate :=
  {| latitude := 48.5%float; longitude := 2.25%float; name := "Paris, France" |}.

(** *** Vocabulary for the further properties *)

(** What a log shows on the console's standard output, in order. *)
Definition stdout_chunks (log : list Event) : list string :=
  flat_map (fun ev => match ev with StdoutWrite chunk => [chunk] | _ => [] end) log.

(** The calls to a text-generation agent a log records. *)
Definition is_agent_call (ev : Event) : bool :=
  match ev with
  | AgentStream _ _ | AgentGenerate _ _ => true
  | _ => false
  end.

(** The steps the runner started, in order. *)
Definition started_steps (log : list Event) : list string :=
  flat_map (fun ev => match ev with StepStart id => [id] | _ => [] end) log.

(** An environment whose services give fixed answers, rejections included. *)
Definition fixed_env (geo : JsError + GeocodingData) (weather : JsError + WeatherData)
    (stream : JsError + list string) (generated : JsError + string) : Env :=
  {| encodeURIComponent := fun s => s;
     Number_toString := fun _ => "0";
     JSON_stringify := fun f => location f;
     Date_toISOString := "2025-06-01T12:00:00.000Z";
     fetch_geocoding := fun _ => geo;
     fetch_forecast := fun _ => weather;
     agent_stream := fun _ => stream;
     webSearchAgent_stream := fun _ => stream;
     webSearchAgent_generate := fun _ => generated |}.

(** The forecast object the fetch-weather step builds for [city] from the
    weather provider's answer [data]. *)
Definition forecast_of (env : Env) (city : string) (data : WeatherData) : Forecast :=
  {| date := Date_toISOString env;
     maxTemp := Math.max (temperature_2m (hourly data));
     minTemp := Math.min (temperature_2m (hourly data));
     condition := getWeatherCondition (weathercode (current data));
     precipitationChance :=
       reduce (fun acc curr => Math.max [acc; curr]) 0%float
              (precipitation_probability (hourly data));
     location := city |}.

(** Sample environments in which one service rejects. *)
Definition forecast_down : Env :=
  fixed_env (inr {| results := Some [paris] |}) (inl (Error "fetch failed"))
            (inr ["never"]) (inr "findings").

Definition geocoding_down : Env :=
  fixed_env (inl (Error "fetch failed")) (inr (sample_data "t" [] []))
            (inr ["never"]) (inr "findings").

Definition stream_down : Env :=
  fixed_env (inr {| results := Some [paris] |})
            (inr (sample_data "t" [20%float] [10%float]))
            (inl (Error "overloaded")) (inr "findings").


(** ** Part II: properties *)

(** *** The order of the numbers *)

(** Facts about comparison, first on the specification floats the primitive
    operations are specified by, then on the numbers themselves. *)
Section NumberOrder.

Local Ltac sf_cases :=
  simpl; try congruence;
  change (PosDef.Pos.compare_cont Eq) with Pos.compare;
  repeat match goal with
    | |- context [Z.compare ?a ?b] => destruct (Z.compare_spec a b)
    | H : context [Z.compare ?a ?b] |- _ => destruct (Z.compare_spec a b)
    | |- context [Pos.compare ?a ?b] => destruct (Pos.compare_spec a b)
    | H : context [Pos.compare ?a ?b] |- _ => destruct (Pos.compare_spec a b)
    end;
  simpl in *; try congruence; try lia.

Local Ltac sf_destruct x :=
  let s := fresh "s" in destruct x as [s|s| |s ? ?]; try destruct s.

Lemma SFleb_trans x y z :
  SFleb x y = true -> SFleb y z = true -> SFleb x z = true.
Proof.
  unfold SFleb, SFcompare. sf_destruct x; sf_destruct y; sf_destruct z; sf_cases.
Qed.

Lemma SFleb_of_not_ltb x y :
  x <> S754_nan -> y <> S754_nan -> SFltb x y = false -> SFleb y x = true.
Proof.
  unfold SFleb, SFltb, SFcompare. sf_destruct x; sf_destruct y; sf_cases.
Qed.

Lemma SFleb_of_ltb x y : SFltb x y = true -> SFleb x y = true.
Proof.
  unfold SFleb, SFltb. destruct (SFcompare x y) as [[]|]; congruence.
Qed.

Lemma SFleb_of_eqb x y : SFeqb x y = true -> SFleb x y = true.
Proof.
  unfold SFleb, SFeqb. destruct (SFcompare x y) as [[]|]; congruence.
Qed.

Lemma SFeqb_of_leb x y :
  SFleb x y = true -> SFleb y x = true -> SFeqb x y = true.
Proof.
  unfold SFleb, SFeqb, SFcompare. sf_destruct x; sf_destruct y; sf_cases.
Qed.

Lemma SFeqb_refl x : x <> S754_nan -> SFeqb x x = true.
Proof.
  unfold SFeqb, SFcompare. sf_destruct x; sf_cases.
Qed.

Lemma SFeqb_nan x : SFeqb x x = false -> x = S754_nan.
Proof.
  intros H. destruct x as [s|s| |s m e]; try reflexivity;
    rewrite SFeqb_refl in H; congruence.
Qed.

Lemma SFltb_neg_infinity x :
  x <> S754_nan -> SFltb (S754_infinity true) x = false -> x = S754_infinity true.
Proof.
  unfold SFltb, SFcompare. sf_destruct x; sf_cases.
Qed.

Lemma SFltb_infinity x :
  x <> S754_nan -> SFltb x (S754_infinity false) = false -> x = S754_infinity false.
Proof.
  unfold SFltb, SFcompare. sf_destruct x; sf_cases.
Qed.

Lemma SFclassify_PZero x : SFclassify prec x = PZero -> x = S754_zero false.
Proof.
  unfold SFclassify. sf_destruct x; try congruence;
    destruct (Z.eqb _ _); congruence.
Qed.

Lemma SFclassify_NZero x : SFclassify prec x = NZero -> x = S754_zero true.
Proof.
  unfold SFclassify. sf_destruct x; try congruence;
    destruct (Z.eqb _ _); congruence.
Qed.

Lemma is_nan_false (x : number) : is_nan x = false -> Prim2SF x <> S754_nan.
Proof.
  unfold is_nan. rewrite FloatAxioms.eqb_spec. intros H E. rewrite E in H. discriminate.
Qed.

Lemma is_nan_true (x : number) : is_nan x = true -> x = nan.
Proof.
  unfold is_nan. rewrite FloatAxioms.eqb_spec. intros H.
  apply Prim2SF_inj. apply negb_true_iff in H. now apply SFeqb_nan in H.
Qed.

Lemma number_leb_trans (x y z : number) :
  (x <=? y)%float = true -> (y <=? z)%float = true -> (x <=? z)%float = true.
Proof. rewrite !FloatAxioms.leb_spec. apply SFleb_trans. Qed.

Lemma number_leb_of_not_ltb (x y : number) :
  is_nan x = false -> is_nan y = false ->
  (x <? y)%float = false -> (y <=? x)%float = true.
Proof.
  intros Hx Hy. rewrite FloatAxioms.ltb_spec, FloatAxioms.leb_spec.
  apply SFleb_of_not_ltb; now apply is_nan_false.
Qed.

Lemma number_leb_of_ltb (x y : number) :
  (x <? y)%float = true -> (x <=? y)%float = true.
Proof. rewrite FloatAxioms.ltb_spec, FloatAxioms.leb_spec. apply SFleb_of_ltb. Qed.

Lemma number_leb_of_eqb (x y : number) :
  (x =? y)%float = true -> (x <=? y)%float = true.
Proof. rewrite FloatAxioms.eqb_spec, FloatAxioms.leb_spec. apply SFleb_of_eqb. Qed.

Lemma number_eqb_of_leb (x y : number) :
  (x <=? y)%float = true -> (y <=? x)%float = true -> (x =? y)%float = true.
Proof. rewrite !FloatAxioms.leb_spec, FloatAxioms.eqb_spec. apply SFeqb_of_leb. Qed.

Lemma number_eqb_refl (x : number) : is_nan x = false -> (x =? x)%float = true.
Proof. intros H. rewrite FloatAxioms.eqb_spec. now apply SFeqb_refl, is_nan_false. Qed.

Lemma number_leb_refl (x : number) : is_nan x = false -> (x <=? x)%float = true.
Proof. intros H. now apply number_leb_of_eqb, number_eqb_refl. Qed.

Lemma SFleb_not_nan x y :
  SFleb x y = true -> x <> S754_nan /\ y <> S754_nan.
Proof.
  unfold SFleb, SFcompare. sf_destruct x; sf_destruct y; simpl; intros H;
    split; congruence.
Qed.

Lemma is_nan_of_SF (x : number) : Prim2SF x <> S754_nan -> is_nan x = false.
Proof.
  intros H. unfold is_nan. rewrite FloatAxioms.eqb_spec.
  now rewrite SFeqb_refl.
Qed.

Lemma number_not_nan_of_leb (x y : number) :
  (x <=? y)%float = true -> is_nan x = false /\ is_nan y = false.
Proof.
  rewrite FloatAxioms.leb_spec. intros H. apply SFleb_not_nan in H.
  destruct H. split; now apply is_nan_of_SF.
Qed.

Lemma number_ltb_neg_infinity (x : number) :
  is_nan x = false -> (neg_infinity <? x)%float = false -> x = neg_infinity.
Proof.
  intros Hx. rewrite FloatAxioms.ltb_spec. intros H. apply Prim2SF_inj.
  apply (SFltb_neg_infinity _ (is_nan_false _ Hx)) in H. now rewrite H.
Qed.

Lemma number_ltb_infinity (x : number) :
  is_nan x = false -> (x <? infinity)%float = false -> x = infinity.
Proof.
  intros Hx. rewrite FloatAxioms.ltb_spec. intros H. apply Prim2SF_inj.
  apply (SFltb_infinity _ (is_nan_false _ Hx)) in H. now rewrite H.
Qed.

Lemma is_pos_zero_eq (x : number) : is_pos_zero x = true -> x = 0%float.
Proof.
  unfold is_pos_zero. rewrite FloatAxioms.classify_spec. intros H. apply Prim2SF_inj.
  destruct (SF64classify (Prim2SF x)) eqn:E; try discriminate.
  apply SFclassify_PZero in E. now rewrite E.
Qed.

Lemma is_neg_zero_eq (x : number) : is_neg_zero x = true -> x = (-0)%float.
Proof.
  unfold is_neg_zero. rewrite FloatAxioms.classify_spec. intros H. apply Prim2SF_inj.
  destruct (SF64classify (Prim2SF x)) eqn:E; try discriminate.
  apply SFclassify_NZero in E. now rewrite E.
Qed.

End NumberOrder.

(** *** [Math.max] and [Math.min] on readings *)

Lemma no_NaN_cons (x : number) (l : list number) :
  no_NaN (x :: l) = true -> is_nan x = false /\ no_NaN l = true.
Proof.
  unfold no_NaN. simpl. intros H. apply andb_true_iff in H as [H1 H2].
  split; [now apply negb_true_iff | exact H2].
Qed.

(** One round of the loop of [Math.max] on numbers that are not NaN: the new
    [highest] is the old one or the argument, and is above both. *)
Lemma max_round (h num : number) :
  is_nan h = false -> is_nan num = false ->
  let h1 := if is_pos_zero num && is_neg_zero h then 0%float else h in
  let h2 := if (h1 <? num)%float then num else h1 in
  (h2 = h \/ h2 = num) /\ (h <=? h2)%float = true /\ (num <=? h2)%float = true.
Proof.
  intros Hh Hn. destruct (is_pos_zero num && is_neg_zero h) eqn:Z; cbv zeta.
  - apply andb_true_iff in Z as [Zn Zh].
    apply is_pos_zero_eq in Zn. apply is_neg_zero_eq in Zh. subst.
    vm_compute. auto.
  - destruct (h <? num)%float eqn:L.
    + split; [now right|]. split; [now apply number_leb_of_ltb | now apply number_leb_refl].
    + split; [now left|]. split; [now apply number_leb_refl | now apply number_leb_of_not_ltb].
Qed.

Lemma max_loop_spec (l : list number) :
  forall h, is_nan h = false -> no_NaN l = true ->
  (Math.max_loop h l = h \/ In (Math.max_loop h l) l)
  /\ (h <=? Math.max_loop h l)%float = true
  /\ forallb (fun x => (x <=? Math.max_loop h l)%float) l = true.
Proof.
  induction l as [|num rest IH]; intros h Hh Hl.
  - simpl. auto using number_leb_refl.
  - apply no_NaN_cons in Hl as [Hn Hrest].
    destruct (max_round h num Hh Hn) as (Hsel & Hle_h & Hle_n).
    cbn [Math.max_loop]. rewrite Hn.
    set (h2 := if ((if is_pos_zero num && is_neg_zero h then 0%float else h) <? num)%float
               then num else _) in *.
    assert (Hh2 : is_nan h2 = false) by (destruct Hsel as [-> | ->]; assumption).
    destruct (IH h2 Hh2 Hrest) as (Hr & Hle & Hall).
    split; [|split].
    + destruct Hr as [-> | Hr]; [| right; now right].
      destruct Hsel as [-> | ->]; [now left | right; now left].
    + eapply number_leb_trans; eassumption.
    + cbn [forallb]. rewrite Hall, andb_true_r.
      eapply number_leb_trans; eassumption.
Qed.

Lemma min_round (lo num : number) :
  is_nan lo = false -> is_nan num = false ->
  let l1 := if is_neg_zero num && is_pos_zero lo then (-0)%float else lo in
  let l2 := if (num <? l1)%float then num else l1 in
  (l2 = lo \/ l2 = num) /\ (l2 <=? lo)%float = true /\ (l2 <=? num)%float = true.
Proof.
  intros Hl Hn. destruct (is_neg_zero num && is_pos_zero lo) eqn:Z; cbv zeta.
  - apply andb_true_iff in Z as [Zn Zl].
    apply is_neg_zero_eq in Zn. apply is_pos_zero_eq in Zl. subst.
    vm_compute. auto.
  - destruct (num <? lo)%float eqn:L.
    + split; [now right|]. split; [now apply number_leb_of_ltb | now apply number_leb_refl].
    + split; [now left|]. split; [now apply number_leb_refl | now apply number_leb_of_not_ltb].
Qed.

Lemma min_loop_spec (l : list number) :
  forall lo, is_nan lo = false -> no_NaN l = true ->
  (Math.min_loop lo l = lo \/ In (Math.min_loop lo l) l)
  /\ (Math.min_loop lo l <=? lo)%float = true
  /\ forallb (fun x => (Math.min_loop lo l <=? x)%float) l = true.
Proof.
  induction l as [|num rest IH]; intros lo Hlo Hl.
  - simpl. auto using number_leb_refl.
  - apply no_NaN_cons in Hl as [Hn Hrest].
    destruct (min_round lo num Hlo Hn) as (Hsel & Hle_l & Hle_n).
    cbn [Math.min_loop]. rewrite Hn.
    set (l2 := if (num <? (if is_neg_zero num && is_pos_zero lo then (-0)%float else lo))%float
               then num else _) in *.
    assert (Hl2 : is_nan l2 = false) by (destruct Hsel as [-> | ->]; assumption).
    destruct (IH l2 Hl2 Hrest) as (Hr & Hle & Hall).
    split; [|split].
    + destruct Hr as [-> | Hr]; [| right; now right].
      destruct Hsel as [-> | ->]; [now left | right; now left].
    + eapply number_leb_trans; eassumption.
    + cbn [forallb]. rewrite Hall, andb_true_r.
      eapply number_leb_trans; eassumption.
Qed.

(** The first round of [Math.max] replaces -Infinity by the first argument,
    the first round of [Math.min] replaces +Infinity by it. *)
Lemma max_cons (x : number) (rest : list number) :
  is_nan x = false -> Math.max (x :: rest) = Math.max_loop x rest.
Proof.
  intros Hx. unfold Math.max. cbn [Math.max_loop]. rewrite Hx.
  replace (is_neg_zero neg_infinity) with false by reflexivity.
  rewrite andb_false_r.
  destruct (neg_infinity <? x)%float eqn:L; [reflexivity|].
  now rewrite (number_ltb_neg_infinity x Hx L).
Qed.

Lemma min_cons (x : number) (rest : list number) :
  is_nan x = false -> Math.min (x :: rest) = Math.min_loop x rest.
Proof.
  intros Hx. unfold Math.min. cbn [Math.min_loop]. rewrite Hx.
  replace (is_pos_zero infinity) with false by reflexivity.
  rewrite andb_false_r.
  destruct (x <? infinity)%float eqn:L; [reflexivity|].
  now rewrite (number_ltb_infinity x Hx L).
Qed.

(** With no argument the loops do not run: [Math.max()] is -Infinity and
    [Math.min()] is +Infinity; a NaN argument makes the result NaN. *)
Lemma Math_max_min_empty :
  Math.max [] = neg_infinity /\ Math.min [] = infinity.
Proof. split; reflexivity. Qed.

Lemma Math_max_NaN (l1 l2 : list number) :
  no_NaN l1 = true -> Math.max (l1 ++ nan :: l2) = nan.
Proof.
  unfold Math.max. generalize neg_infinity.
  induction l1 as [|x l1 IH]; intros h Hl; [reflexivity|].
  apply no_NaN_cons in Hl as [Hx Hl]. cbn [app Math.max_loop]. rewrite Hx.
  now apply IH.
Qed.

Lemma existsb_eqb_of_In (v : number) (l : list number) :
  is_nan v = false -> In v l -> existsb (fun x => (x =? v)%float) l = true.
Proof.
  intros Hv Hin. apply existsb_exists. exists v. split; [exact Hin|].
  now apply number_eqb_refl.
Qed.

Lemma Math_max_nonempty (T : list number) :
  T <> [] -> no_NaN T = true ->
  In (Math.max T) T /\ is_maximum (Math.max T) T = true.
Proof.
  destruct T as [|x rest]; [congruence|]. intros _ HT.
  destruct (no_NaN_cons _ _ HT) as [Hx Hrest].
  rewrite (max_cons x rest Hx).
  destruct (max_loop_spec rest x Hx Hrest) as (Hr & Hle & Hall).
  assert (Hin : In (Math.max_loop x rest) (x :: rest))
    by (destruct Hr as [-> | Hr]; [now left | now right]).
  split; [exact Hin|]. unfold is_maximum. apply andb_true_iff. split.
  - apply existsb_eqb_of_In; [|exact Hin].
    now apply number_not_nan_of_leb in Hle.
  - cbn [forallb]. now rewrite Hle, Hall.
Qed.

Lemma Math_min_nonempty (T : list number) :
  T <> [] -> no_NaN T = true ->
  In (Math.min T) T /\ is_minimum (Math.min T) T = true.
Proof.
  destruct T as [|x rest]; [congruence|]. intros _ HT.
  destruct (no_NaN_cons _ _ HT) as [Hx Hrest].
  rewrite (min_cons x rest Hx).
  destruct (min_loop_spec rest x Hx Hrest) as (Hr & Hle & Hall).
  assert (Hin : In (Math.min_loop x rest) (x :: rest))
    by (destruct Hr as [-> | Hr]; [now left | now right]).
  split; [exact Hin|]. unfold is_minimum. apply andb_true_iff. split.
  - apply existsb_eqb_of_In; [|exact Hin].
    now apply number_not_nan_of_leb in Hle.
  - cbn [forallb]. now rewrite Hle, Hall.
Qed.

(** *** The precipitation fold *)

Lemma reduce_max_nan (P : list number) :
  reduce (fun acc curr => Math.max [acc; curr]) nan P = nan.
Proof.
  unfold reduce. induction P as [|curr P IH]; [reflexivity|].
  cbn [fold_left]. exact IH.
Qed.

Lemma reduce_max_loop (P : list number) :
  forall acc, is_nan acc = false ->
  reduce (fun acc curr => Math.max [acc; curr]) acc P = Math.max_loop acc P.
Proof.
  unfold reduce. induction P as [|curr P IH]; intros acc Hacc; [reflexivity|].
  cbn [fold_left]. rewrite (max_cons acc [curr] Hacc).
  cbn [Math.max_loop]. destruct (is_nan curr) eqn:Hc.
  - apply reduce_max_nan.
  - apply IH. destruct (max_round acc curr Hacc Hc) as ([-> | ->] & _); assumption.
Qed.

Lemma reduce_max_zero (P : list number) :
  reduce (fun acc curr => Math.max [acc; curr]) 0%float P = Math.max (0%float :: P).
Proof.
  rewrite max_cons by reflexivity. now apply reduce_max_loop.
Qed.

Lemma reduce_max_spec (P : list number) :
  no_NaN P = true ->
  let r := reduce (fun acc curr => Math.max [acc; curr]) 0%float P in
  (r = 0%float \/ In r P)
  /\ (0 <=? r)%float = true
  /\ forallb (fun x => (x <=? r)%float) P = true.
Proof.
  intros HP r. subst r. rewrite reduce_max_loop by reflexivity.
  now apply max_loop_spec.
Qed.

(** *** What the fetch-weather step returns *)

Lemma fetchWeather_serves env c first data log :
  serves env c first data ->
  execute fetchWeather (Some {| city := c |}) env log
  = (inr {| date := Date_toISOString env;
            maxTemp := Math.max (temperature_2m (hourly data));
            minTemp := Math.min (temperature_2m (hourly data));
            precipitationChance :=
              reduce (fun acc curr => Math.max [acc; curr]) 0%float
                     (precipitation_probability (hourly data));
            condition := getWeatherCondition (weathercode (current data));
            location := c |},
     log ++ [Fetch (geocodingUrl env c);
             Fetch (weatherUrl env (latitude first) (longitude first))]).
Proof.
  intros [[rest Hgeo] Hdata].
  unfold execute, fetchWeather, fetchWeather_execute, mbind, Run_bind, builtin, await.
  cbn [city]. rewrite Hgeo. cbn [results]. rewrite Hdata.
  unfold mret, Run_ret. now rewrite <- app_assoc.
Qed.

Lemma fetchWeather_success env input log f log' :
  execute fetchWeather (Some input) env log = (inr f, log') ->
  exists first data,
    serves env (city input) first data
    /\ f = {| date := Date_toISOString env;
              maxTemp := Math.max (temperature_2m (hourly data));
              minTemp := Math.min (temperature_2m (hourly data));
              precipitationChance :=
                reduce (fun acc curr => Math.max [acc; curr]) 0%float
                       (precipitation_probability (hourly data));
              condition := getWeatherCondition (weathercode (current data));
              location := city input |}.
Proof.
  unfold execute, fetchWeather, fetchWeather_execute, mbind, Run_bind, builtin, await.
  destruct (fetch_geocoding env (geocodingUrl env (city input))) as [e|[res]] eqn:Hgeo;
    [discriminate|].
  cbn [results]. destruct res as [[|first rest]|]; try discriminate.
  destruct (fetch_forecast env _) as [e|data] eqn:Hdata; [discriminate|].
  unfold mret, Run_ret. intros [= <- _].
  exists first, data. split; [|reflexivity].
  split; [exists rest; exact Hgeo | exact Hdata].
Qed.

(** *** Precipitation chance (claims C1 and C10) *)

(** C1, as stated, fails: the precipitation chance is not the maximum of the
    series when every reading is negative, and not when the series is empty.
    For the series [-5] the step returns 0, which is no reading of the series;
    for the empty series it returns 0 as well. *)
Lemma precipitationChance_not_max_counterexample :
  (exists f,
     fst (execute fetchWeather (Some {| city := "Paris" |})
            (sample_env (Some [paris]) (sample_data "t" [20%float] [(-5)%float]) []) [])
     = inr f
     /\ precipitationChance f = 0%float
     /\ is_maximum (precipitationChance f) [(-5)%float] = false)
  /\ (exists f,
     fst (execute fetchWeather (Some {| city := "Paris" |})
            (sample_env (Some [paris]) (sample_data "t" [20%float] []) []) [])
     = inr f
     /\ precipitationChance f = 0%float
     /\ is_maximum (precipitationChance f) [] = false).
Proof.
  split; eexists; (split; [reflexivity|]); split; reflexivity.
Qed.

(** C1, amended: when the geocoding lookup and the weather provider answer,
    the step returns a forecast whose precipitation chance is the maximum of
    the hourly precipitation-probability series [P], provided [P] has a
    reading that is not negative (so for every non-empty series of
    probabilities); it is a maximum, never an average: for [10, 90, 30] it
    is 90. *)
Theorem precipitationChance_is_max env c first data log :
  serves env c first data ->
  no_NaN (precipitation_probability (hourly data)) = true ->
  existsb (fun p => (0 <=? p)%float) (precipitation_probability (hourly data)) = true ->
  exists f log',
    execute fetchWeather (Some {| city := c |}) env log = (inr f, log')
    /\ is_maximum (precipitationChance f) (precipitation_probability (hourly data)) = true
    /\ (precipitation_probability (hourly data) = [10; 90; 30]%float ->
        precipitationChance f = 90%float).
Proof.
  intros Hs HP Hpos. do 2 eexists. split; [exact (fetchWeather_serves _ _ _ _ _ Hs)|].
  cbn [precipitationChance]. split; [|now intros ->].
  destruct (reduce_max_spec _ HP) as (Hr & H0 & Hall).
  unfold is_maximum. rewrite Hall, andb_true_r.
  destruct Hr as [Hr | Hr].
  - apply existsb_exists in Hpos as (p & Hin & Hp).
    apply existsb_exists. exists p. split; [exact Hin|].
    rewrite Hr in *. apply number_eqb_of_leb; [|exact Hp].
    rewrite forallb_forall in Hall. now apply Hall.
  - apply existsb_eqb_of_In; [|exact Hr]. now apply number_not_nan_of_leb in H0.
Qed.

Lemma precipitationChance_is_max_witness :
  exists f log',
    execute fetchWeather (Some {| city := "Paris" |})
      (sample_env (Some [paris]) (sample_data "t" [20%float] [10; 90; 30]%float) []) []
    = (inr f, log')
    /\ is_maximum (precipitationChance f) [10; 90; 30]%float = true
    /\ ([10; 90; 30]%float = [10; 90; 30]%float -> precipitationChance f = 90%float).
Proof.
  apply (precipitationChance_is_max
           (sample_env (Some [paris]) (sample_data "t" [20%float] [10; 90; 30]%float) [])
           "Paris" paris (sample_data "t" [20%float] [10; 90; 30]%float) []).
  - split; [exists []; reflexivity | reflexivity].
  - reflexivity.
  - reflexivity.
Defined.

(** C10: the fold starts from 0.  When the lookups answer, the step returns a
    forecast whose precipitation chance is [Math.max(0, ...P)], the maximum of
    0 together with the readings: it is 0 for the empty series, and for
    readings that are numbers it is at least 0, at least every reading, and
    is 0 or one of the readings. *)
Theorem precipitationChance_from_zero env c first data log :
  serves env c first data ->
  exists f log',
    execute fetchWeather (Some {| city := c |}) env log = (inr f, log')
    /\ precipitationChance f = Math.max (0%float :: precipitation_probability (hourly data))
    /\ (precipitation_probability (hourly data) = [] -> precipitationChance f = 0%float)
    /\ (no_NaN (precipitation_probability (hourly data)) = true ->
        is_maximum (precipitationChance f)
                   (0%float :: precipitation_probability (hourly data)) = true
        /\ (0 <=? precipitationChance f)%float = true
        /\ (precipitationChance f = 0%float
            \/ In (precipitationChance f) (precipitation_probability (hourly data)))).
Proof.
  intros Hs. do 2 eexists. split; [exact (fetchWeather_serves _ _ _ _ _ Hs)|].
  cbn [precipitationChance]. split; [apply reduce_max_zero|].
  split; [now intros ->|]. intros HP.
  destruct (reduce_max_spec _ HP) as (Hr & H0 & Hall).
  split; [|split; assumption].
  unfold is_maximum. cbn [existsb forallb]. rewrite H0, Hall, andb_true_r.
  destruct Hr as [Hr | Hr].
  - rewrite Hr. reflexivity.
  - apply orb_true_iff. right.
    apply existsb_eqb_of_In; [|exact Hr]. now apply number_not_nan_of_leb in H0.
Qed.

Lemma precipitationChance_from_zero_witness :
  exists f log',
    execute fetchWeather (Some {| city := "Paris" |})
      (sample_env (Some [paris]) (sample_data "t" [20%float] [(-5); (-2)]%float) []) []
    = (inr f, log')
    /\ precipitationChance f = Math.max [0; (-5); (-2)]%float
    /\ ([(-5); (-2)]%float = [] -> precipitationChance f = 0%float)
    /\ (no_NaN [(-5); (-2)]%float = true ->
        is_maximum (precipitationChance f) [0; (-5); (-2)]%float = true
        /\ (0 <=? precipitationChance f)%float = true
        /\ (precipitationChance f = 0%float
            \/ In (precipitationChance f) [(-5); (-2)]%float)).
Proof.
  apply (precipitationChance_from_zero
           (sample_env (Some [paris]) (sample_data "t" [20%float] [(-5); (-2)]%float) [])
           "Paris" paris (sample_data "t" [20%float] [(-5); (-2)]%float) []).
  split; [exists []; reflexivity | reflexivity].
Defined.

(** *** Temperatures (claim C5) *)

(** C5: when the lookups answer and the hourly temperature series [T] is not
    empty, the step returns a forecast whose maxTemp is the maximum of [T] and
    whose minTemp is the minimum of [T]; both are readings of [T]. *)
Theorem maxTemp_minTemp_extremes env c first data log :
  serves env c first data ->
  temperature_2m (hourly data) <> [] ->
  no_NaN (temperature_2m (hourly data)) = true ->
  exists f log',
    execute fetchWeather (Some {| city := c |}) env log = (inr f, log')
    /\ is_maximum (maxTemp f) (temperature_2m (hourly data)) = true
    /\ is_minimum (minTemp f) (temperature_2m (hourly data)) = true
    /\ In (maxTemp f) (temperature_2m (hourly data))
    /\ In (minTemp f) (temperature_2m (hourly data)).
Proof.
  intros Hs Hne HT. do 2 eexists. split; [exact (fetchWeather_serves _ _ _ _ _ Hs)|].
  cbn [maxTemp minTemp].
  destruct (Math_max_nonempty _ Hne HT) as [Hin_max Hmax].
  destruct (Math_min_nonempty _ Hne HT) as [Hin_min Hmin].
  repeat split; assumption.
Qed.

Lemma maxTemp_minTemp_extremes_witness :
  exists f log',
    execute fetchWeather (Some {| city := "Paris" |})
      (sample_env (Some [paris])
         (sample_data "t" [12.5; (-3); 21.25; 0]%float [10; 90; 30]%float) []) []
    = (inr f, log')
    /\ is_maximum (maxTemp f) [12.5; (-3); 21.25; 0]%float = true
    /\ is_minimum (minTemp f) [12.5; (-3); 21.25; 0]%float = true
    /\ In (maxTemp f) [12.5; (-3); 21.25; 0]%float
    /\ In (minTemp f) [12.5; (-3); 21.25; 0]%float.
Proof.
  apply (maxTemp_minTemp_extremes
           (sample_env (Some [paris])
              (sample_data "t" [12.5; (-3); 21.25; 0]%float [10; 90; 30]%float) [])
           "Paris" paris
           (sample_data "t" [12.5; (-3); 21.25; 0]%float [10; 90; 30]%float) []).
  - split; [exists []; reflexivity | reflexivity].
  - discriminate.
  - reflexivity.
Defined.

(** *** The weather-code table (claim C3) *)

Lemma conditions_lookup (n : Z) (label : string) :
  conditions !! n = Some label <-> In (n, label) conditions_entries.
Proof.
  unfold conditions. rewrite <- list_elem_of_In.
  symmetry. apply elem_of_list_to_map.
  apply (bool_decide_unpack _). vm_compute. reflexivity.
Qed.

Lemma conditions_lookup_None (n : Z) :
  (forall label, ~ In (n, label) conditions_entries) -> conditions !! n = None.
Proof.
  intros H. destruct (conditions !! n) as [label|] eqn:E; [|reflexivity].
  apply conditions_lookup in E. now apply H in E.
Qed.

Lemma conditions_labels_truthy (n : Z) (label : string) :
  In (n, label) conditions_entries -> truthy (Some label) = true.
Proof.
  unfold conditions_entries. cbn [In].
  intros H; repeat (destruct H as [[= <- <-] | H]; [reflexivity|]); contradiction.
Qed.

(** C3: the weather-code mapping is a total function into the strings.  On a
    code with integer value [n] it returns the label the table lists for [n]
    (0 gives "Clear sky", 61 gives "Slight rain"), and "Unknown" when the
    table lists none. *)
Theorem getWeatherCondition_total (code : number) (n : Z) :
  integer_value code = Some n ->
  (forall label, In (n, label) conditions_entries -> getWeatherCondition code = label)
  /\ ((forall label, ~ In (n, label) conditions_entries) ->
      getWeatherCondition code = "Unknown")
  /\ getWeatherCondition 0%float = "Clear sky"
  /\ getWeatherCondition 61%float = "Slight rain".
Proof.
  intros Hn. unfold getWeatherCondition, conditions_at. rewrite Hn.
  split; [|split; [|split; reflexivity]].
  - intros label Hin. pose proof (conditions_labels_truthy _ _ Hin) as Ht.
    apply conditions_lookup in Hin. rewrite Hin. unfold or_else. now rewrite Ht.
  - intros Hout. now rewrite (conditions_lookup_None n Hout).
Qed.

Lemma getWeatherCondition_total_witness :
  (forall label, In (61, label) conditions_entries ->
                 getWeatherCondition 61%float = label)
  /\ ((forall label, ~ In (61, label) conditions_entries) ->
      getWeatherCondition 61%float = "Unknown")
  /\ getWeatherCondition 0%float = "Clear sky"
  /\ getWeatherCondition 61%float = "Slight rain".
Proof.
  apply (getWeatherCondition_total 61%float 61). reflexivity.
Defined.

(** A code that is no integer (a fraction, an infinity, NaN) gives "Unknown"
    as well. *)
Lemma getWeatherCondition_not_integer (code : number) :
  integer_value code = None -> getWeatherCondition code = "Unknown".
Proof.
  intros H. unfold getWeatherCondition, conditions_at. now rewrite H.
Qed.

(** *** Geocoding without a candidate (claim C4) *)

(** C4: when the geocoding lookup returns no candidate, the run of workflow A
    fails with the not-found error for the city; the runner has started the
    fetch-weather step only, the only call made is the geocoding request: the
    plan-activities step is never started and no text-generation call is
    made. *)
Theorem weatherWorkflow_not_found env c :
  no_candidate env c ->
  run weatherWorkflow env {| city := c |}
  = (inl (NotFoundError c), [StepStart (id fetchWeather); Fetch (geocodingUrl env c)])
  /\ ~ In (StepStart (id planActivities)) (snd (run weatherWorkflow env {| city := c |}))
  /\ (forall agent content,
        ~ In (AgentStream agent content) (snd (run weatherWorkflow env {| city := c |}))
        /\ ~ In (AgentGenerate agent content)
                (snd (run weatherWorkflow env {| city := c |}))).
Proof.
  intros Hno.
  assert (E : run weatherWorkflow env {| city := c |}
              = (inl (NotFoundError c),
                 [StepStart (id fetchWeather); Fetch (geocodingUrl env c)])).
  { unfold run, weatherWorkflow, then_, createWorkflow, run_step, fetchWeather,
      mbind, Run_bind, mret, Run_ret, emit.
    cbn [execute id app]. unfold fetchWeather_execute, mbind, Run_bind, builtin, await.
    cbn [city app]. destruct Hno as [-> | ->]; reflexivity. }
  rewrite E. split; [reflexivity|]. cbn [snd In id fetchWeather planActivities].
  split; [|intros agent content; split]; intros [H | [H | []]]; discriminate.
Qed.

Lemma weatherWorkflow_not_found_witness :
  run weatherWorkflow (sample_env None (sample_data "t" [] []) ["never"])
      {| city := "Atlantis" |}
  = (inl (Error "Location 'Atlantis' not found"),
     [StepStart "fetch-weather";
      Fetch "https://geocoding-api.open-meteo.com/v1/search?name=Atlantis&count=1"]).
Proof.
  apply (weatherWorkflow_not_found
           (sample_env None (sample_data "t" [] []) ["never"]) "Atlantis").
  left. reflexivity.
Defined.

(** *** Streaming accumulation (claim C6) *)

Lemma append_nil_r (s : string) : s +:+ EmptyString = s.
Proof.
  induction s as [|a s IH]; [reflexivity|].
  change (String a (s +:+ EmptyString) = String a s). now rewrite IH.
Qed.

Lemma append_assoc (s t u : string) : (s +:+ t) +:+ u = s +:+ (t +:+ u).
Proof.
  induction s as [|a s IH]; [reflexivity|].
  change (String a ((s +:+ t) +:+ u) = String a (s +:+ (t +:+ u))). now rewrite IH.
Qed.

Lemma fold_left_append (chunks : list string) :
  forall acc, fold_left String.append chunks acc = acc +:+ concatenation chunks.
Proof.
  induction chunks as [|chunk rest IH]; intros acc; cbn.
  - now rewrite append_nil_r.
  - rewrite IH. apply append_assoc.
Qed.

(** The loop: every fragment is echoed and appended, in order. *)
Lemma for_await_chunks_spec (textStream : list string) :
  forall activitiesText env log,
  for_await_chunks textStream activitiesText env log
  = (inr (fold_left String.append textStream activitiesText),
     log ++ map StdoutWrite textStream).
Proof.
  induction textStream as [|chunk rest IH]; intros acc env log.
  - cbn. unfold mret, Run_ret. now rewrite app_nil_r.
  - cbn [for_await_chunks fold_left map]. unfold mbind, Run_bind, emit.
    rewrite IH. now rewrite <- app_assoc.
Qed.

(** C6: whatever finite sequence of fragments the streaming call delivers, the
    plan-activities step (and likewise the step that plans from search
    findings) returns as [activities] the fold of the fragments by string
    append, which is their concatenation in the order of arrival; the echo to
    the console does not change it.  The fragments "Hel", "lo, ", "world" give
    "Hello, world", and in another order they give another string. *)
Theorem activities_is_concatenation env (chunks : list string) :
  (forall forecast log,
     agent_stream env (activitiesPrompt env forecast) = inr chunks ->
     execute planActivities (Some forecast) env log
     = (inr {| activities := fold_left String.append chunks EmptyString |},
        log ++ AgentStream "Weather Agent" (activitiesPrompt env forecast)
            :: map StdoutWrite chunks))
  /\ (forall found log,
     webSearchAgent_stream env (webSearchPrompt found) = inr chunks ->
     fst (execute planWebSearchActivities (Some found) env log)
     = inr {| activities := fold_left String.append chunks EmptyString |})
  /\ fold_left String.append chunks EmptyString = concatenation chunks
  /\ concatenation ["Hel"; "lo, "; "world"] = "Hello, world"
  /\ concatenation ["lo, "; "Hel"; "world"] <> concatenation ["Hel"; "lo, "; "world"].
Proof.
  split; [|split; [|split; [|split]]].
  - intros forecast log Hs.
    unfold execute, planActivities, planActivities_execute, mbind, Run_bind,
      builtin, await.
    rewrite Hs, for_await_chunks_spec. unfold mret, Run_ret.
    now rewrite <- app_assoc.
  - intros found log Hs.
    unfold execute, planWebSearchActivities, planWebSearchActivities_execute,
      mbind, Run_bind, emit, await.
    rewrite Hs, for_await_chunks_spec. reflexivity.
  - apply fold_left_append.
  - reflexivity.
  - discriminate.
Qed.

Lemma activities_is_concatenation_witness :
  execute planActivities
    (Some {| date := "d"; maxTemp := 1%float; minTemp := 0%float;
             precipitationChance := 0%float; condition := "Clear sky";
             location := "Paris" |})
    (sample_env (Some [paris]) (sample_data "t" [] []) ["Hel"; "lo, "; "world"]) []
  = (inr {| activities := "Hello, world" |},
     [AgentStream "Weather Agent"
        "Based on the following weather forecast for Paris, suggest appropriate activities:
      Paris
      ";
      StdoutWrite "Hel"; StdoutWrite "lo, "; StdoutWrite "world"]).
Proof.
  apply (proj1 (activities_is_concatenation
                  (sample_env (Some [paris]) (sample_data "t" [] [])
                     ["Hel"; "lo, "; "world"])
                  ["Hel"; "lo, "; "world"])).
  reflexivity.
Defined.

(** *** The forecast's date and location (claims C7 and C9) *)

(** C7: the date of the forecast is the reading of the clock and nothing
    else: two successful runs under the same clock reading produce the same
    date, whatever the cities asked for and whatever the geocoding lookup and
    the weather provider (its [time] field included) answer. *)
Theorem forecast_date_independent env1 env2 input1 input2 log1 log2 f1 f2 log1' log2' :
  Date_toISOString env1 = Date_toISOString env2 ->
  execute fetchWeather (Some input1) env1 log1 = (inr f1, log1') ->
  execute fetchWeather (Some input2) env2 log2 = (inr f2, log2') ->
  date f1 = date f2 /\ date f1 = Date_toISOString env1.
Proof.
  intros Hclock H1 H2.
  apply fetchWeather_success in H1 as (first1 & data1 & _ & ->).
  apply fetchWeather_success in H2 as (first2 & data2 & _ & ->).
  cbn [date]. now split.
Qed.

Lemma forecast_date_independent_witness :
  exists f1 f2,
    fst (execute fetchWeather (Some {| city := "Paris" |})
           (sample_env (Some [paris])
              (sample_data "2001-01-01T00:00" [1%float] [20%float]) []) [])
    = inr f1
    /\ fst (execute fetchWeather (Some {| city := "Paris" |})
           (sample_env (Some [paris])
              (sample_data "2031-12-31T23:45" [30; 35]%float [90%float]) []) [])
       = inr f2
    /\ maxTemp f1 <> maxTemp f2
    /\ date f1 = date f2
    /\ date f1 = "2025-06-01T12:00:00.000Z".
Proof.
  do 2 eexists. split; [reflexivity|]. split; [reflexivity|].
  split; [cbn [maxTemp]; vm_compute; discriminate|].
  eapply (forecast_date_independent
            (sample_env (Some [paris])
               (sample_data "2001-01-01T00:00" [1%float] [20%float]) [])
            (sample_env (Some [paris])
               (sample_data "2031-12-31T23:45" [30; 35]%float [90%float]) [])
            {| city := "Paris" |} {| city := "Paris" |} [] [] _ _
            (sample_log "Paris" paris) (sample_log "Paris" paris));
    reflexivity.
Defined.

(** C9: in every successful run of the fetch-weather step the location of the
    forecast is the city string the caller supplied, unchanged; the canonical
    name of the first geocoding candidate is received and not used. *)
Theorem forecast_location_is_city env input log f log' :
  execute fetchWeather (Some input) env log = (inr f, log') ->
  location f = city input.
Proof.
  intros H. apply fetchWeather_success in H as (first & data & _ & ->).
  reflexivity.
Qed.

Lemma forecast_location_is_city_witness :
  exists f,
    fst (execute fetchWeather (Some {| city := "paris" |})
           (sample_env (Some [paris]) (sample_data "t" [1%float] [20%float]) []) [])
    = inr f
    /\ location f = "paris"
    /\ name paris = "Paris, France".
Proof.
  eexists. split; [reflexivity|]. split; [|reflexivity].
  eapply (forecast_location_is_city
            (sample_env (Some [paris]) (sample_data "t" [1%float] [20%float]) [])
            {| city := "paris" |} [] _ (sample_log "paris" paris)).
  reflexivity.
Defined.

(** *** The web-search step (claims C2 and C8) *)

(** C8: in every successful run of the web-search step the output carries the
    query and the focus of the input unchanged; the search findings are the
    text of the generation call, the one field that is new. *)
Theorem webSearchInfo_keeps_query_focus env input log found log' :
  execute webSearchInfo (Some input) env log = (inr found, log') ->
  SearchResult.query found = SearchInput.query input
  /\ SearchResult.focus found = SearchInput.focus input
  /\ webSearchAgent_generate env (searchContent (searchQuery input))
     = inr (SearchResult.searchResults found).
Proof.
  unfold execute, webSearchInfo, webSearchInfo_execute, mbind, Run_bind, emit, await.
  destruct (webSearchAgent_generate env _) as [e|text] eqn:Hgen; [discriminate|].
  unfold mret, Run_ret. intros [= <- _]. cbn. auto.
Qed.

Lemma webSearchInfo_keeps_query_focus_witness :
  exists found,
    fst (execute webSearchInfo
           (Some {| SearchInput.query := "Lisbon"; SearchInput.focus := Some "food" |})
           (sample_env None (sample_data "t" [] []) []) [])
    = inr found
    /\ SearchResult.query found = "Lisbon"
    /\ SearchResult.focus found = Some "food"
    /\ (inr "findings" : JsError + string) = inr (SearchResult.searchResults found).
Proof.
  eexists. split; [reflexivity|].
  eapply (webSearchInfo_keeps_query_focus
            (sample_env None (sample_data "t" [] []) [])
            {| SearchInput.query := "Lisbon"; SearchInput.focus := Some "food" |} [] _
            (snd (execute webSearchInfo
                    (Some {| SearchInput.query := "Lisbon";
                             SearchInput.focus := Some "food" |})
                    (sample_env None (sample_data "t" [] []) []) []))).
  reflexivity.
Defined.

Lemma list_ascii_of_append (s t : string) :
  list_ascii_of_string (s +:+ t) = list_ascii_of_string s ++ list_ascii_of_string t.
Proof.
  induction s as [|a s IH]; [reflexivity|].
  change (a :: list_ascii_of_string (s +:+ t)
          = a :: (list_ascii_of_string s ++ list_ascii_of_string t)).
  now rewrite IH.
Qed.

(** C2, as stated, fails: without a focus the phrase is the query followed by
    other terms; it is not the phrase the claim describes and does not end
    with the boilerplate at all. *)
Lemma searchQuery_boilerplate_counterexample :
  searchQuery {| SearchInput.query := "Paris"; SearchInput.focus := None |}
  = "Paris current activities attractions events what to do"
  /\ searchQuery {| SearchInput.query := "Paris"; SearchInput.focus := None |}
     <> claimed_searchQuery "Paris" None
  /\ ~ (exists prefix,
          searchQuery {| SearchInput.query := "Paris"; SearchInput.focus := None |}
          = prefix +:+ boilerplate).
Proof.
  split; [reflexivity|]. split; [discriminate|].
  intros [prefix H].
  assert (Hs : list_ascii_of_string boilerplate
               `suffix_of` list_ascii_of_string
                 (searchQuery {| SearchInput.query := "Paris";
                                 SearchInput.focus := None |})).
  { rewrite H, list_ascii_of_append. now exists (list_ascii_of_string prefix). }
  revert Hs. apply (bool_decide_eq_false_1 _). vm_compute. reflexivity.
Qed.

(** C2, amended: with a focus that is not empty the search phrase is the
    query, a space, the focus and " current information activities
    attractions events"; without a focus, and with an empty one, it is the
    query and " current activities attractions events what to do". *)
Theorem searchQuery_phrase (q f : string) :
  f <> EmptyString ->
  searchQuery {| SearchInput.query := q; SearchInput.focus := Some f |}
  = q +:+ " " +:+ f +:+ " current information activities attractions events"
  /\ searchQuery {| SearchInput.query := q; SearchInput.focus := None |}
     = q +:+ " current activities attractions events what to do"
  /\ searchQuery {| SearchInput.query := q; SearchInput.focus := Some EmptyString |}
     = q +:+ " current activities attractions events what to do".
Proof.
  intros Hf. split; [|split; reflexivity].
  unfold searchQuery. cbn [SearchInput.focus SearchInput.query].
  destruct f as [|a f]; [congruence|]. reflexivity.
Qed.

Lemma searchQuery_phrase_witness :
  searchQuery {| SearchInput.query := "Lisbon"; SearchInput.focus := Some "food" |}
  = "Lisbon food current information activities attractions events".
Proof.
  apply (searchQuery_phrase "Lisbon" "food"). discriminate.
Defined.

(** ** Part III: further properties of the steps and workflows *)

(** *** Steps invoked without input *)

(** A step invoked without input throws its own message and touches nothing
    outside: the log is unchanged, no request and no agent call is made. *)
Theorem steps_without_input env log :
  execute fetchWeather None env log = (inl (Error "Input data not found"), log)
  /\ execute planActivities None env log = (inl (Error "Forecast data not found"), log)
  /\ execute webSearchInfo None env log = (inl (Error "Input data not found"), log)
  /\ execute planWebSearchActivities None env log
     = (inl (Error "Search results not found"), log).
Proof. repeat split. Qed.

(** *** How the fetch-weather step fails *)

(** The step fails in three ways only: the geocoding request rejects (its
    error is passed on, one request made), the lookup has no candidate (the
    not-found error, one request made), or the forecast request rejects (its
    error is passed on, two requests made). *)
Theorem fetchWeather_failure env input log e log' :
  execute fetchWeather (Some input) env log = (inl e, log') ->
  (fetch_geocoding env (geocodingUrl env (city input)) = inl e
   /\ log' = log ++ [Fetch (geocodingUrl env (city input))])
  \/ (no_candidate env (city input)
      /\ e = NotFoundError (city input)
      /\ log' = log ++ [Fetch (geocodingUrl env (city input))])
  \/ (exists first rest,
        fetch_geocoding env (geocodingUrl env (city input))
        = inr {| results := Some (first :: rest) |}
        /\ fetch_forecast env (weatherUrl env (latitude first) (longitude first)) = inl e
        /\ log' = log ++ [Fetch (geocodingUrl env (city input));
                          Fetch (weatherUrl env (latitude first) (longitude first))]).
Proof.
  unfold execute, fetchWeather, fetchWeather_execute, mbind, Run_bind, builtin, await,
    no_candidate.
  destruct (fetch_geocoding env (geocodingUrl env (city input))) as [e0|[res]] eqn:Hgeo.
  - intros [= <- <-]. now left.
  - cbn [results]. destruct res as [[|first rest]|].
    + unfold throw. intros [= <- <-]. right; left. auto.
    + destruct (fetch_forecast env _) as [e1|data] eqn:Hdata.
      * intros [= <- <-]. right; right. exists first, rest.
        rewrite <- app_assoc. auto.
      * unfold mret, Run_ret. discriminate.
    + unfold throw. intros [= <- <-]. right; left. auto.
Qed.

Lemma fetchWeather_failure_witness :
  (fetch_geocoding forecast_down (geocodingUrl forecast_down "Paris")
   = inl (Error "fetch failed")
   /\ [Fetch (geocodingUrl forecast_down "Paris");
        Fetch (weatherUrl forecast_down (latitude paris) (longitude paris))]
      = [] ++ [Fetch (geocodingUrl forecast_down "Paris")])
  \/ (no_candidate forecast_down "Paris"
      /\ Error "fetch failed" = NotFoundError "Paris"
      /\ [Fetch (geocodingUrl forecast_down "Paris");
           Fetch (weatherUrl forecast_down (latitude paris) (longitude paris))]
         = [] ++ [Fetch (geocodingUrl forecast_down "Paris")])
  \/ (exists first rest,
        fetch_geocoding forecast_down (geocodingUrl forecast_down "Paris")
        = inr {| results := Some (first :: rest) |}
        /\ fetch_forecast forecast_down
             (weatherUrl forecast_down (latitude first) (longitude first))
           = inl (Error "fetch failed")
        /\ [Fetch (geocodingUrl forecast_down "Paris");
             Fetch (weatherUrl forecast_down (latitude paris) (longitude paris))]
           = [] ++ [Fetch (geocodingUrl forecast_down "Paris");
                    Fetch (weatherUrl forecast_down (latitude first) (longitude first))]).
Proof.
  apply (fetchWeather_failure forecast_down {| city := "Paris" |} []
           (Error "fetch failed")
           [Fetch (geocodingUrl forecast_down "Paris");
            Fetch (weatherUrl forecast_down (latitude paris) (longitude paris))]).
  reflexivity.
Defined.

(** *** Temperatures and precipitation: bounds, edge cases, order of readings *)

Lemma max_loop_nan (l : list number) :
  existsb is_nan l = true -> forall h, Math.max_loop h l = nan.
Proof.
  induction l as [|x l IH]; [discriminate|]. cbn [existsb Math.max_loop].
  intros H h. destruct (is_nan x); [reflexivity|]. now apply IH.
Qed.

Lemma min_loop_nan (l : list number) :
  existsb is_nan l = true -> forall lo, Math.min_loop lo l = nan.
Proof.
  induction l as [|x l IH]; [discriminate|]. cbn [existsb Math.min_loop].
  intros H lo. destruct (is_nan x); [reflexivity|]. now apply IH.
Qed.

Lemma no_NaN_forall (l : list number) :
  no_NaN l = true <-> forall x, In x l -> is_nan x = false.
Proof.
  unfold no_NaN. rewrite forallb_forall.
  split; intros H x Hx; specialize (H x Hx); now apply negb_true_iff.
Qed.

Lemma no_NaN_perm (l1 l2 : list number) :
  Permutation l1 l2 -> no_NaN l1 = true -> no_NaN l2 = true.
Proof.
  rewrite !no_NaN_forall. intros Hp H x Hx. apply H.
  eapply Permutation_in; [symmetry; exact Hp | exact Hx].
Qed.

(** The result of the loop of [Math.max] does not depend, as a number, on the
    order of the arguments. *)
Lemma max_loop_perm (h : number) (l1 l2 : list number) :
  is_nan h = false -> no_NaN l1 = true -> Permutation l1 l2 ->
  (Math.max_loop h l1 =? Math.max_loop h l2)%float = true.
Proof.
  intros Hh H1 Hp. pose proof (no_NaN_perm _ _ Hp H1) as H2.
  destruct (max_loop_spec l1 h Hh H1) as (Hr1 & Hh1 & Hall1).
  destruct (max_loop_spec l2 h Hh H2) as (Hr2 & Hh2 & Hall2).
  rewrite forallb_forall in Hall1, Hall2.
  apply number_eqb_of_leb.
  - destruct Hr1 as [-> | Hin]; [exact Hh2|].
    apply Hall2. eapply Permutation_in; eassumption.
  - destruct Hr2 as [-> | Hin]; [exact Hh1|].
    apply Hall1. eapply Permutation_in; [symmetry|]; eassumption.
Qed.

Lemma min_loop_perm (lo : number) (l1 l2 : list number) :
  is_nan lo = false -> no_NaN l1 = true -> Permutation l1 l2 ->
  (Math.min_loop lo l1 =? Math.min_loop lo l2)%float = true.
Proof.
  intros Hlo H1 Hp. pose proof (no_NaN_perm _ _ Hp H1) as H2.
  destruct (min_loop_spec l1 lo Hlo H1) as (Hr1 & Hlo1 & Hall1).
  destruct (min_loop_spec l2 lo Hlo H2) as (Hr2 & Hlo2 & Hall2).
  rewrite forallb_forall in Hall1, Hall2.
  apply number_eqb_of_leb.
  - destruct Hr2 as [-> | Hin]; [exact Hlo1|].
    apply Hall1. eapply Permutation_in; [symmetry|]; eassumption.
  - destruct Hr1 as [-> | Hin]; [exact Hlo2|].
    apply Hall2. eapply Permutation_in; eassumption.
Qed.

(** When the lookups answer with a non-empty series of temperatures that are
    numbers, the forecast's minTemp is at most its maxTemp. *)
Theorem minTemp_le_maxTemp env c first data log :
  serves env c first data ->
  temperature_2m (hourly data) <> [] ->
  no_NaN (temperature_2m (hourly data)) = true ->
  exists f log',
    execute fetchWeather (Some {| city := c |}) env log = (inr f, log')
    /\ (minTemp f <=? maxTemp f)%float = true.
Proof.
  intros Hs Hne HT. do 2 eexists. split; [exact (fetchWeather_serves _ _ _ _ _ Hs)|].
  cbn [maxTemp minTemp].
  destruct (Math_max_nonempty _ Hne HT) as [_ Hmax].
  destruct (Math_min_nonempty _ Hne HT) as [_ Hmin].
  unfold is_maximum in Hmax. unfold is_minimum in Hmin.
  apply andb_true_iff in Hmax as [_ Hmax]. apply andb_true_iff in Hmin as [_ Hmin].
  destruct (temperature_2m (hourly data)) as [|x rest]; [congruence|].
  cbn [forallb] in Hmax, Hmin.
  apply andb_true_iff in Hmax as [Hmax _]. apply andb_true_iff in Hmin as [Hmin _].
  eapply number_leb_trans; eassumption.
Qed.

Lemma minTemp_le_maxTemp_witness :
  exists f log',
    execute fetchWeather (Some {| city := "Paris" |})
      (sample_env (Some [paris]) (sample_data "t" [12.5; (-3); 21.25]%float []) []) []
    = (inr f, log')
    /\ (minTemp f <=? maxTemp f)%float = true.
Proof.
  apply (minTemp_le_maxTemp
           (sample_env (Some [paris]) (sample_data "t" [12.5; (-3); 21.25]%float []) [])
           "Paris" paris (sample_data "t" [12.5; (-3); 21.25]%float []) []).
  - split; [exists []; reflexivity | reflexivity].
  - discriminate.
  - reflexivity.
Defined.

(** When the weather provider answers with an empty hourly temperature series
    the step does not fail: it returns a forecast with maxTemp -Infinity and
    minTemp +Infinity, so that minTemp exceeds maxTemp. *)
Theorem empty_temperatures_infinite env c first data log :
  serves env c first data ->
  temperature_2m (hourly data) = [] ->
  exists f log',
    execute fetchWeather (Some {| city := c |}) env log = (inr f, log')
    /\ maxTemp f = neg_infinity
    /\ minTemp f = infinity
    /\ (maxTemp f <? minTemp f)%float = true.
Proof.
  intros Hs HT. do 2 eexists. split; [exact (fetchWeather_serves _ _ _ _ _ Hs)|].
  cbn [maxTemp minTemp]. rewrite HT. repeat split.
Qed.

Lemma empty_temperatures_infinite_witness :
  exists f log',
    execute fetchWeather (Some {| city := "Paris" |})
      (sample_env (Some [paris]) (sample_data "t" [] [10%float]) []) []
    = (inr f, log')
    /\ maxTemp f = neg_infinity
    /\ minTemp f = infinity
    /\ (maxTemp f <? minTemp f)%float = true.
Proof.
  apply (empty_temperatures_infinite
           (sample_env (Some [paris]) (sample_data "t" [] [10%float]) [])
           "Paris" paris (sample_data "t" [] [10%float]) []).
  - split; [exists []; reflexivity | reflexivity].
  - reflexivity.
Defined.

(** A NaN among the hourly temperatures makes both maxTemp and minTemp NaN,
    and a NaN among the precipitation probabilities makes the precipitation
    chance NaN, wherever in the series it stands; the step still returns. *)
Theorem NaN_reading_propagates env c first data log :
  serves env c first data ->
  exists f log',
    execute fetchWeather (Some {| city := c |}) env log = (inr f, log')
    /\ (existsb is_nan (temperature_2m (hourly data)) = true ->
        maxTemp f = nan /\ minTemp f = nan)
    /\ (existsb is_nan (precipitation_probability (hourly data)) = true ->
        precipitationChance f = nan).
Proof.
  intros Hs. do 2 eexists. split; [exact (fetchWeather_serves _ _ _ _ _ Hs)|].
  cbn [maxTemp minTemp precipitationChance]. split.
  - intros H. split; [now apply max_loop_nan | now apply min_loop_nan].
  - intros H. rewrite reduce_max_zero, max_cons by reflexivity.
    now apply max_loop_nan.
Qed.

Lemma NaN_reading_propagates_witness :
  exists f log',
    execute fetchWeather (Some {| city := "Paris" |})
      (sample_env (Some [paris]) (sample_data "t" [1; nan; 3]%float [50; 60; nan]%float) [])
      []
    = (inr f, log')
    /\ (existsb is_nan [1; nan; 3]%float = true -> maxTemp f = nan /\ minTemp f = nan)
    /\ (existsb is_nan [50; 60; nan]%float = true -> precipitationChance f = nan).
Proof.
  apply (NaN_reading_propagates
           (sample_env (Some [paris])
              (sample_data "t" [1; nan; 3]%float [50; 60; nan]%float) [])
           "Paris" paris (sample_data "t" [1; nan; 3]%float [50; 60; nan]%float) []).
  split; [exists []; reflexivity | reflexivity].
Defined.

(** The precipitation chance stays within the bound of the readings: when
    every reading is a number not above a bound [b] that is not negative
    (100 for probabilities in percent), the precipitation chance is between 0
    and [b]. *)
Theorem precipitationChance_bounded env c first data log (b : number) :
  serves env c first data ->
  no_NaN (precipitation_probability (hourly data)) = true ->
  (0 <=? b)%float = true ->
  forallb (fun p => (p <=? b)%float) (precipitation_probability (hourly data)) = true ->
  exists f log',
    execute fetchWeather (Some {| city := c |}) env log = (inr f, log')
    /\ (0 <=? precipitationChance f)%float = true
    /\ (precipitationChance f <=? b)%float = true.
Proof.
  intros Hs HP Hb Hall. do 2 eexists.
  split; [exact (fetchWeather_serves _ _ _ _ _ Hs)|].
  cbn [precipitationChance].
  destruct (reduce_max_spec _ HP) as (Hr & H0 & _). split; [exact H0|].
  destruct Hr as [-> | Hin]; [exact Hb|].
  rewrite forallb_forall in Hall. now apply Hall.
Qed.

Lemma precipitationChance_bounded_witness :
  exists f log',
    execute fetchWeather (Some {| city := "Paris" |})
      (sample_env (Some [paris]) (sample_data "t" [] [10; 100; 30]%float) []) []
    = (inr f, log')
    /\ (0 <=? precipitationChance f)%float = true
    /\ (precipitationChance f <=? 100)%float = true.
Proof.
  apply (precipitationChance_bounded
           (sample_env (Some [paris]) (sample_data "t" [] [10; 100; 30]%float) [])
           "Paris" paris (sample_data "t" [] [10; 100; 30]%float) [] 100%float).
  - split; [exists []; reflexivity | reflexivity].
  - reflexivity.
  - reflexivity.
  - reflexivity.
Defined.

(** The summary does not depend on the order of the hourly readings: two
    answers whose series are permutations of each other (and hold numbers)
    give forecasts with equal maxTemp, minTemp and precipitation chance. *)
Theorem forecast_order_insensitive env1 env2 c1 c2 first1 first2 data1 data2 log1 log2 :
  serves env1 c1 first1 data1 ->
  serves env2 c2 first2 data2 ->
  Permutation (temperature_2m (hourly data1)) (temperature_2m (hourly data2)) ->
  Permutation (precipitation_probability (hourly data1))
              (precipitation_probability (hourly data2)) ->
  no_NaN (temperature_2m (hourly data1)) = true ->
  no_NaN (precipitation_probability (hourly data1)) = true ->
  exists f1 f2 log1' log2',
    execute fetchWeather (Some {| city := c1 |}) env1 log1 = (inr f1, log1')
    /\ execute fetchWeather (Some {| city := c2 |}) env2 log2 = (inr f2, log2')
    /\ (maxTemp f1 =? maxTemp f2)%float = true
    /\ (minTemp f1 =? minTemp f2)%float = true
    /\ (precipitationChance f1 =? precipitationChance f2)%float = true.
Proof.
  intros Hs1 Hs2 HpT HpP HT HP. do 4 eexists.
  split; [exact (fetchWeather_serves _ _ _ _ _ Hs1)|].
  split; [exact (fetchWeather_serves _ _ _ _ _ Hs2)|].
  cbn [maxTemp minTemp precipitationChance]. split; [|split].
  - now apply max_loop_perm.
  - now apply min_loop_perm.
  - rewrite !reduce_max_loop by reflexivity. now apply max_loop_perm.
Qed.

Lemma forecast_order_insensitive_witness :
  exists f1 f2 log1' log2',
    execute fetchWeather (Some {| city := "Paris" |})
      (sample_env (Some [paris]) (sample_data "t" [1; 5]%float [10; 90]%float) []) []
    = (inr f1, log1')
    /\ execute fetchWeather (Some {| city := "Paris" |})
         (sample_env (Some [paris]) (sample_data "t" [5; 1]%float [90; 10]%float) []) []
       = (inr f2, log2')
    /\ (maxTemp f1 =? maxTemp f2)%float = true
    /\ (minTemp f1 =? minTemp f2)%float = true
    /\ (precipitationChance f1 =? precipitationChance f2)%float = true.
Proof.
  apply (forecast_order_insensitive
           (sample_env (Some [paris]) (sample_data "t" [1; 5]%float [10; 90]%float) [])
           (sample_env (Some [paris]) (sample_data "t" [5; 1]%float [90; 10]%float) [])
           "Paris" "Paris" paris paris
           (sample_data "t" [1; 5]%float [10; 90]%float)
           (sample_data "t" [5; 1]%float [90; 10]%float) [] []).
  - split; [exists []; reflexivity | reflexivity].
  - split; [exists []; reflexivity | reflexivity].
  - apply perm_swap.
  - apply perm_swap.
  - reflexivity.
  - reflexivity.
Defined.

(** *** What the forecast depends on *)

Lemma fetchWeather_forecast_of env c first data log :
  serves env c first data ->
  execute fetchWeather (Some {| city := c |}) env log
  = (inr (forecast_of env c data),
     log ++ [Fetch (geocodingUrl env c);
             Fetch (weatherUrl env (latitude first) (longitude first))]).
Proof. apply fetchWeather_serves. Qed.

(** The forecast is determined by the city asked for, the clock, the two
    hourly series and the current weather code.  The candidate's canonical
    name, any further candidate, and the provider's current time and current
    precipitation are received and have no influence. *)
Theorem forecast_frame env1 env2 c first1 first2 data1 data2 log1 log2 :
  serves env1 c first1 data1 ->
  serves env2 c first2 data2 ->
  Date_toISOString env1 = Date_toISOString env2 ->
  hourly data1 = hourly data2 ->
  weathercode (current data1) = weathercode (current data2) ->
  exists f log1' log2',
    execute fetchWeather (Some {| city := c |}) env1 log1 = (inr f, log1')
    /\ execute fetchWeather (Some {| city := c |}) env2 log2 = (inr f, log2').
Proof.
  intros Hs1 Hs2 Hclock Hhourly Hcode. do 3 eexists.
  split; [exact (fetchWeather_serves _ _ _ _ _ Hs1)|].
  rewrite (fetchWeather_serves _ _ _ _ _ Hs2), Hclock, Hhourly, Hcode. reflexivity.
Qed.

Lemma forecast_frame_witness :
  exists f log1' log2',
    execute fetchWeather (Some {| city := "Paris" |})
      (sample_env (Some [paris]) (sample_data "2001-01-01T00:00" [1; 5]%float [10%float]) [])
      []
    = (inr f, log1')
    /\ execute fetchWeather (Some {| city := "Paris" |})
         (sample_env
            (Some [ {| latitude := 1%float; longitude := 2%float; name := "Paris, Texas" |};
                    paris ])
            {| current := {| time := "2031-12-31T23:45"; precipitation := 7.5%float;
                             weathercode := 61%float |};
               hourly := {| precipitation_probability := [10%float];
                            temperature_2m := [1; 5]%float |} |} ["x"])
         [StepStart "fetch-weather"]
       = (inr f, log2').
Proof.
  apply (forecast_frame
           (sample_env (Some [paris])
              (sample_data "2001-01-01T00:00" [1; 5]%float [10%float]) [])
           (sample_env
              (Some [ {| latitude := 1%float; longitude := 2%float;
                         name := "Paris, Texas" |}; paris ])
              {| current := {| time := "2031-12-31T23:45"; precipitation := 7.5%float;
                               weathercode := 61%float |};
                 hourly := {| precipitation_probability := [10%float];
                              temperature_2m := [1; 5]%float |} |} ["x"])
           "Paris" paris
           {| latitude := 1%float; longitude := 2%float; name := "Paris, Texas" |}
           (sample_data "2001-01-01T00:00" [1; 5]%float [10%float])
           {| current := {| time := "2031-12-31T23:45"; precipitation := 7.5%float;
                            weathercode := 61%float |};
              hourly := {| precipitation_probability := [10%float];
                           temperature_2m := [1; 5]%float |} |}
           [] [StepStart "fetch-weather"]).
  - split; [exists []; reflexivity | reflexivity].
  - split; [exists [paris]; reflexivity | reflexivity].
  - reflexivity.
  - reflexivity.
  - reflexivity.
Defined.

(** *** The condition labels *)

Lemma conditions_labels_known (n : Z) (label : string) :
  In (n, label) conditions_entries -> label <> "Unknown".
Proof.
  unfold conditions_entries. cbn [In].
  intros H; repeat (destruct H as [[= <- <-] | H]; [discriminate|]); contradiction.
Qed.

Lemma conditions_labels_distinct (n1 n2 : Z) (label : string) :
  In (n1, label) conditions_entries -> In (n2, label) conditions_entries -> n1 = n2.
Proof.
  unfold conditions_entries. cbn [In].
  intros H1 H2.
  repeat (destruct H1 as [[= <- <-] | H1]); [..|contradiction];
    repeat (destruct H2 as [E | H2]); try contradiction; congruence.
Qed.

(** The label of a code is either "Unknown" or the label the table lists for
    the integer value of the code. *)
Lemma getWeatherCondition_cases (code : number) :
  (getWeatherCondition code = "Unknown"
   /\ forall n label, integer_value code = Some n -> ~ In (n, label) conditions_entries)
  \/ (exists n, integer_value code = Some n
               /\ In (n, getWeatherCondition code) conditions_entries).
Proof.
  unfold getWeatherCondition, conditions_at.
  destruct (integer_value code) as [n|] eqn:Hn; [|left; split; [reflexivity|discriminate]].
  destruct (conditions !! n) as [label|] eqn:Hl.
  - right. exists n. split; [reflexivity|].
    apply conditions_lookup in Hl.
    unfold or_else. now rewrite (conditions_labels_truthy _ _ Hl).
  - left. split; [reflexivity|]. intros n' label [= <-] Hin.
    apply conditions_lookup in Hin. congruence.
Qed.

(** The condition label is never empty, and it is "Unknown" exactly for the
    codes the table does not list: no listed code is labelled "Unknown". *)
Theorem getWeatherCondition_unknown_iff (code : number) :
  getWeatherCondition code <> EmptyString
  /\ (getWeatherCondition code = "Unknown"
      <-> ~ exists n label, integer_value code = Some n /\ In (n, label) conditions_entries).
Proof.
  destruct (getWeatherCondition_cases code) as [[Hu Hout] | (n & Hn & Hin)].
  - rewrite Hu. split; [discriminate|]. split; [|reflexivity].
    intros _ (n & label & Hn & Hin). exact (Hout n label Hn Hin).
  - split.
    + intros E. rewrite E in Hin. apply conditions_labels_truthy in Hin. discriminate.
    + split.
      * intros E. rewrite E in Hin. now apply conditions_labels_known in Hin.
      * intros H. exfalso. apply H. eauto.
Qed.

(** Distinct listed codes have distinct labels: two codes with integer values
    that get the same label, other than "Unknown", have the same value. *)
Theorem getWeatherCondition_injective (code1 code2 : number) (n1 n2 : Z) :
  integer_value code1 = Some n1 ->
  integer_value code2 = Some n2 ->
  getWeatherCondition code1 = getWeatherCondition code2 ->
  getWeatherCondition code1 <> "Unknown" ->
  n1 = n2.
Proof.
  intros H1 H2 E Hk.
  destruct (getWeatherCondition_cases code1) as [[Hu _] | (m1 & Hm1 & Hin1)];
    [congruence|].
  destruct (getWeatherCondition_cases code2) as [[Hu _] | (m2 & Hm2 & Hin2)];
    [congruence|].
  rewrite H1 in Hm1. rewrite H2 in Hm2. injection Hm1 as <-. injection Hm2 as <-.
  rewrite E in Hin1. exact (conditions_labels_distinct _ _ _ Hin1 Hin2).
Qed.

Lemma getWeatherCondition_injective_witness : 0 = 0.
Proof.
  apply (getWeatherCondition_injective 0%float (-0)%float 0 0); try reflexivity.
  discriminate.
Defined.

(** *** The planning steps *)

Lemma planActivities_streams env forecast chunks log :
  agent_stream env (activitiesPrompt env forecast) = inr chunks ->
  execute planActivities (Some forecast) env log
  = (inr {| activities := concatenation chunks |},
     log ++ AgentStream "Weather Agent" (activitiesPrompt env forecast)
         :: map StdoutWrite chunks).
Proof.
  intros Hs.
  unfold execute, planActivities, planActivities_execute, mbind, Run_bind,
    builtin, await.
  rewrite Hs, for_await_chunks_spec. unfold mret, Run_ret.
  now rewrite <- app_assoc, fold_left_append.
Qed.

Lemma planActivities_rejects env forecast e log :
  agent_stream env (activitiesPrompt env forecast) = inl e ->
  execute planActivities (Some forecast) env log
  = (inl e, log ++ [AgentStream "Weather Agent" (activitiesPrompt env forecast)]).
Proof.
  intros Hs.
  unfold execute, planActivities, planActivities_execute, mbind, Run_bind,
    builtin, await.
  now rewrite Hs.
Qed.

Lemma planWebSearchActivities_streams env found chunks log :
  webSearchAgent_stream env (webSearchPrompt found) = inr chunks ->
  execute planWebSearchActivities (Some found) env log
  = (inr {| activities := concatenation chunks |},
     log ++ ConsoleLog ("🎯 Planning activities for: " +:+ SearchResult.query found)
         :: AgentStream "Web Search Activity Planner" (webSearchPrompt found)
         :: map StdoutWrite chunks).
Proof.
  intros Hs.
  unfold execute, planWebSearchActivities, planWebSearchActivities_execute,
    mbind, Run_bind, emit, await.
  rewrite Hs, for_await_chunks_spec. unfold mret, Run_ret.
  now rewrite <- !app_assoc, fold_left_append.
Qed.

Lemma planWebSearchActivities_rejects env found e log :
  webSearchAgent_stream env (webSearchPrompt found) = inl e ->
  execute planWebSearchActivities (Some found) env log
  = (inl e,
     log ++ [ConsoleLog ("🎯 Planning activities for: " +:+ SearchResult.query found);
             AgentStream "Web Search Activity Planner" (webSearchPrompt found)]).
Proof.
  intros Hs.
  unfold execute, planWebSearchActivities, planWebSearchActivities_execute,
    mbind, Run_bind, emit, await.
  rewrite Hs. now rewrite <- app_assoc.
Qed.

(** *** Workflow A, end to end *)

Ltac unfold_run :=
  unfold run, weatherWorkflow, webSearchWorkflow, then_, createWorkflow, run_step,
    fetchWeather, planActivities, webSearchInfo, planWebSearchActivities;
  cbn [execute id];
  unfold mbind, Run_bind, mret, Run_ret, emit.

(** When the lookups answer and the agent streams its fragments for the
    prompt built from the forecast, a run of workflow A returns the
    concatenation of the fragments, and does, in this order: start
    fetch-weather, the geocoding request, the forecast request, start
    plan-activities, one call of the agent, one console write per fragment. *)
Theorem weatherWorkflow_success env c first data chunks :
  serves env c first data ->
  agent_stream env (activitiesPrompt env (forecast_of env c data)) = inr chunks ->
  run weatherWorkflow env {| city := c |}
  = (inr {| activities := concatenation chunks |},
     [StepStart "fetch-weather";
      Fetch (geocodingUrl env c);
      Fetch (weatherUrl env (latitude first) (longitude first));
      StepStart "plan-activities";
      AgentStream "Weather Agent" (activitiesPrompt env (forecast_of env c data))]
     ++ map StdoutWrite chunks).
Proof.
  intros Hs Hstream. unfold_run. cbn [app].
  pose proof (fetchWeather_forecast_of env c first data [StepStart "fetch-weather"] Hs)
    as Hf.
  unfold execute, fetchWeather in Hf. rewrite Hf. cbn [app].
  pose proof (planActivities_streams env (forecast_of env c data) chunks
                [StepStart "fetch-weather"; Fetch (geocodingUrl env c);
                 Fetch (weatherUrl env (latitude first) (longitude first));
                 StepStart "plan-activities"] Hstream) as Hp.
  unfold execute, planActivities in Hp. rewrite Hp. reflexivity.
Qed.

Lemma weatherWorkflow_success_witness :
  run weatherWorkflow
      (sample_env (Some [paris]) (sample_data "t" [20%float] [10%float])
                  ["Walk "; "along the Seine"])
      {| city := "Paris" |}
  = (inr {| activities := "Walk along the Seine" |},
     [StepStart "fetch-weather";
      Fetch "https://geocoding-api.open-meteo.com/v1/search?name=Paris&count=1";
      Fetch "https://api.open-meteo.com/v1/forecast?latitude=0&longitude=0&current=precipitation,weathercode&timezone=auto,&hourly=precipitation_probability,temperature_2m";
      StepStart "plan-activities";
      AgentStream "Weather Agent"
        "Based on the following weather forecast for Paris, suggest appropriate activities:
      Paris
      ";
      StdoutWrite "Walk "; StdoutWrite "along the Seine"]).
Proof.
  apply (weatherWorkflow_success
           (sample_env (Some [paris]) (sample_data "t" [20%float] [10%float])
                       ["Walk "; "along the Seine"])
           "Paris" paris (sample_data "t" [20%float] [10%float])
           ["Walk "; "along the Seine"]).
  - split; [exists []; reflexivity | reflexivity].
  - reflexivity.
Defined.

(** Whatever makes the fetch-weather step fail (a rejected request as well as
    a missing candidate), the run of workflow A returns that very error, the
    plan-activities step is never started, no agent is called and nothing is
    written to the console. *)
Theorem weatherWorkflow_aborts env input e log' :
  execute fetchWeather (Some input) env [StepStart "fetch-weather"] = (inl e, log') ->
  run weatherWorkflow env input = (inl e, log')
  /\ started_steps log' = ["fetch-weather"]
  /\ existsb is_agent_call log' = false
  /\ stdout_chunks log' = [].
Proof.
  intros H. split.
  - unfold_run. cbn [app]. unfold execute, fetchWeather in H. now rewrite H.
  - apply fetchWeather_failure in H
      as [[_ ->] | [(_ & _ & ->) | (first & rest & _ & _ & ->)]];
      repeat split.
Qed.

Lemma weatherWorkflow_aborts_witness :
  run weatherWorkflow geocoding_down {| city := "Paris" |}
  = (inl (Error "fetch failed"),
     [StepStart "fetch-weather"; Fetch (geocodingUrl geocoding_down "Paris")])
  /\ started_steps
       [StepStart "fetch-weather"; Fetch (geocodingUrl geocoding_down "Paris")]
     = ["fetch-weather"]
  /\ existsb is_agent_call
       [StepStart "fetch-weather"; Fetch (geocodingUrl geocoding_down "Paris")]
     = false
  /\ stdout_chunks
       [StepStart "fetch-weather"; Fetch (geocodingUrl geocoding_down "Paris")]
     = [].
Proof.
  apply (weatherWorkflow_aborts geocoding_down {| city := "Paris" |}
           (Error "fetch failed")
           [StepStart "fetch-weather"; Fetch (geocodingUrl geocoding_down "Paris")]).
  reflexivity.
Defined.

(** When the forecast is built and the agent's streaming call rejects, the run
    of workflow A fails with the agent's error after both steps have started;
    the forecast is not returned and nothing is written to the console. *)
Theorem weatherWorkflow_agent_rejects env c first data e :
  serves env c first data ->
  agent_stream env (activitiesPrompt env (forecast_of env c data)) = inl e ->
  run weatherWorkflow env {| city := c |}
  = (inl e,
     [StepStart "fetch-weather";
      Fetch (geocodingUrl env c);
      Fetch (weatherUrl env (latitude first) (longitude first));
      StepStart "plan-activities";
      AgentStream "Weather Agent" (activitiesPrompt env (forecast_of env c data))])
  /\ stdout_chunks (snd (run weatherWorkflow env {| city := c |})) = [].
Proof.
  intros Hs Hstream.
  assert (E : run weatherWorkflow env {| city := c |}
              = (inl e,
                 [StepStart "fetch-weather";
                  Fetch (geocodingUrl env c);
                  Fetch (weatherUrl env (latitude first) (longitude first));
                  StepStart "plan-activities";
                  AgentStream "Weather Agent"
                    (activitiesPrompt env (forecast_of env c data))])).
  { unfold_run. cbn [app].
    pose proof (fetchWeather_forecast_of env c first data [StepStart "fetch-weather"] Hs)
      as Hf.
    unfold execute, fetchWeather in Hf. rewrite Hf. cbn [app].
    pose proof (planActivities_rejects env (forecast_of env c data) e
                  [StepStart "fetch-weather"; Fetch (geocodingUrl env c);
                   Fetch (weatherUrl env (latitude first) (longitude first));
                   StepStart "plan-activities"] Hstream) as Hp.
    unfold execute, planActivities in Hp. rewrite Hp. reflexivity. }
  rewrite E. split; reflexivity.
Qed.

Lemma weatherWorkflow_agent_rejects_witness :
  run weatherWorkflow stream_down {| city := "Paris" |}
  = (inl (Error "overloaded"),
     [StepStart "fetch-weather";
      Fetch (geocodingUrl stream_down "Paris");
      Fetch (weatherUrl stream_down (latitude paris) (longitude paris));
      StepStart "plan-activities";
      AgentStream "Weather Agent"
        (activitiesPrompt stream_down
           (forecast_of stream_down "Paris" (sample_data "t" [20%float] [10%float])))])
  /\ stdout_chunks (snd (run weatherWorkflow stream_down {| city := "Paris" |})) = [].
Proof.
  apply (weatherWorkflow_agent_rejects stream_down "Paris" paris
           (sample_data "t" [20%float] [10%float]) (Error "overloaded")).
  - split; [exists []; reflexivity | reflexivity].
  - reflexivity.
Defined.

(** *** Workflow B, end to end *)

Lemma webSearchInfo_generates env input text log :
  webSearchAgent_generate env (searchContent (searchQuery input)) = inr text ->
  execute webSearchInfo (Some input) env log
  = (inr {| SearchResult.searchResults := text;
            SearchResult.query := SearchInput.query input;
            SearchResult.focus := SearchInput.focus input |},
     log ++ [ConsoleLog ("🔍 Searching for: " +:+ searchQuery input);
             AgentGenerate "Web Search Activity Planner"
               (searchContent (searchQuery input))]).
Proof.
  intros Hg.
  unfold execute, webSearchInfo, webSearchInfo_execute, mbind, Run_bind, emit, await.
  rewrite Hg. unfold mret, Run_ret. now rewrite <- app_assoc.
Qed.


(** When the search agent returns its findings and then streams its fragments
    for the prompt built from those findings, a run of workflow B returns the
    concatenation of the fragments, and does, in this order: start
    web-search-info, log the search phrase, one non-streaming call with the
    phrase, start plan-web-search-activities, log the query, one streaming
    call, one console write per fragment. *)
Theorem webSearchWorkflow_success env input text chunks :
  webSearchAgent_generate env (searchContent (searchQuery input)) = inr text ->
  webSearchAgent_stream env
    (webSearchPrompt {| SearchResult.searchResults := text;
                        SearchResult.query := SearchInput.query input;
                        SearchResult.focus := SearchInput.focus input |})
  = inr chunks ->
  run webSearchWorkflow env input
  = (inr {| activities := concatenation chunks |},
     [StepStart "web-search-info";
      ConsoleLog ("🔍 Searching for: " +:+ searchQuery input);
      AgentGenerate "Web Search Activity Planner" (searchContent (searchQuery input));
      StepStart "plan-web-search-activities";
      ConsoleLog ("🎯 Planning activities for: " +:+ SearchInput.query input);
      AgentStream "Web Search Activity Planner"
        (webSearchPrompt {| SearchResult.searchResults := text;
                            SearchResult.query := SearchInput.query input;
                            SearchResult.focus := SearchInput.focus input |})]
     ++ map StdoutWrite chunks).
Proof.
  intros Hg Hs. unfold_run. cbn [app].
  pose proof (webSearchInfo_generates env input text [StepStart "web-search-info"] Hg)
    as H1.
  unfold execute, webSearchInfo in H1. rewrite H1. cbn [app].
  pose proof (planWebSearchActivities_streams env _ chunks
                [StepStart "web-search-info";
                 ConsoleLog ("🔍 Searching for: " +:+ searchQuery input);
                 AgentGenerate "Web Search Activity Planner"
                   (searchContent (searchQuery input));
                 StepStart "plan-web-search-activities"] Hs) as H2.
  unfold execute, planWebSearchActivities in H2. rewrite H2. reflexivity.
Qed.

Lemma webSearchWorkflow_success_witness :
  fst (run webSearchWorkflow
         (sample_env None (sample_data "t" [] []) ["Eat "; "pasteis"])
         {| SearchInput.query := "Lisbon"; SearchInput.focus := Some "food" |})
  = inr {| activities := "Eat pasteis" |}
  /\ started_steps
       (snd (run webSearchWorkflow
               (sample_env None (sample_data "t" [] []) ["Eat "; "pasteis"])
               {| SearchInput.query := "Lisbon"; SearchInput.focus := Some "food" |}))
     = ["web-search-info"; "plan-web-search-activities"].
Proof.
  rewrite (webSearchWorkflow_success
             (sample_env None (sample_data "t" [] []) ["Eat "; "pasteis"])
             {| SearchInput.query := "Lisbon"; SearchInput.focus := Some "food" |}
             "findings" ["Eat "; "pasteis"] eq_refl eq_refl).
  split; reflexivity.
Defined.



(** *** What the planning steps use, echo and return *)

(** The step that plans from search findings builds its prompt from the
    findings alone: two inputs with the same findings, whatever their query and
    focus, lead to the same call of the agent and to the same outcome (the
    query only shows in the console line). *)
Theorem planWebSearchActivities_findings_only env (a b : SearchResult.t) log :
  SearchResult.searchResults a = SearchResult.searchResults b ->
  webSearchPrompt a = webSearchPrompt b
  /\ fst (execute planWebSearchActivities (Some a) env log)
     = fst (execute planWebSearchActivities (Some b) env log).
Proof.
  intros H.
  assert (Hp : webSearchPrompt a = webSearchPrompt b)
    by (unfold webSearchPrompt; now rewrite H).
  split; [exact Hp|].
  destruct (webSearchAgent_stream env (webSearchPrompt a)) as [e|chunks] eqn:Hs.
  - rewrite (planWebSearchActivities_rejects env a e log Hs).
    rewrite Hp in Hs. now rewrite (planWebSearchActivities_rejects env b e log Hs).
  - rewrite (planWebSearchActivities_streams env a chunks log Hs).
    rewrite Hp in Hs. now rewrite (planWebSearchActivities_streams env b chunks log Hs).
Qed.

Lemma planWebSearchActivities_findings_only_witness :
  webSearchPrompt {| SearchResult.searchResults := "Fado tonight";
                     SearchResult.query := "Lisbon";
                     SearchResult.focus := Some "music" |}
  = webSearchPrompt {| SearchResult.searchResults := "Fado tonight";
                       SearchResult.query := "Porto";
                       SearchResult.focus := None |}
  /\ fst (execute planWebSearchActivities
            (Some {| SearchResult.searchResults := "Fado tonight";
                     SearchResult.query := "Lisbon";
                     SearchResult.focus := Some "music" |})
            (sample_env None (sample_data "t" [] []) ["Go"]) [])
     = fst (execute planWebSearchActivities
              (Some {| SearchResult.searchResults := "Fado tonight";
                       SearchResult.query := "Porto";
                       SearchResult.focus := None |})
              (sample_env None (sample_data "t" [] []) ["Go"]) []).
Proof.
  apply (planWebSearchActivities_findings_only
           (sample_env None (sample_data "t" [] []) ["Go"])
           {| SearchResult.searchResults := "Fado tonight";
              SearchResult.query := "Lisbon";
              SearchResult.focus := Some "music" |}
           {| SearchResult.searchResults := "Fado tonight";
              SearchResult.query := "Porto";
              SearchResult.focus := None |} []).
  reflexivity.
Defined.

Lemma stdout_chunks_writes (chunks : list string) :
  stdout_chunks (map StdoutWrite chunks) = chunks.
Proof.
  induction chunks as [|chunk rest IH]; [reflexivity|].
  cbn. unfold stdout_chunks in IH. now rewrite IH.
Qed.

(** What a planning step writes to the console is what it returns: in every
    successful run of either planning step, the fragments written to standard
    output during the run, concatenated in order, are exactly the returned
    [activities]. *)
Theorem stdout_echo_is_activities env log (r : Activities) log' :
  (forall forecast,
     execute planActivities (Some forecast) env log = (inr r, log') ->
     exists new, log' = log ++ new
                 /\ concatenation (stdout_chunks new) = activities r)
  /\ (forall found,
     execute planWebSearchActivities (Some found) env log = (inr r, log') ->
     exists new, log' = log ++ new
                 /\ concatenation (stdout_chunks new) = activities r).
Proof.
  split.
  - intros forecast H.
    destruct (agent_stream env (activitiesPrompt env forecast)) as [e|chunks] eqn:Hs.
    + rewrite (planActivities_rejects _ _ _ _ Hs) in H. discriminate.
    + rewrite (planActivities_streams _ _ _ _ Hs) in H. injection H as <- <-.
      eexists. split; [reflexivity|].
      cbn [stdout_chunks flat_map app activities].
      fold (stdout_chunks (map StdoutWrite chunks)). now rewrite stdout_chunks_writes.
  - intros found H.
    destruct (webSearchAgent_stream env (webSearchPrompt found)) as [e|chunks] eqn:Hs.
    + rewrite (planWebSearchActivities_rejects _ _ _ _ Hs) in H. discriminate.
    + rewrite (planWebSearchActivities_streams _ _ _ _ Hs) in H. injection H as <- <-.
      eexists. split; [reflexivity|].
      cbn [stdout_chunks flat_map app activities].
      fold (stdout_chunks (map StdoutWrite chunks)). now rewrite stdout_chunks_writes.
Qed.

Lemma stdout_echo_is_activities_witness :
  exists new,
    snd (execute planActivities (Some (forecast_of stream_down "Paris"
                                         (sample_data "t" [20%float] [10%float])))
           (sample_env None (sample_data "t" [] []) ["Hel"; "lo"])
           [StepStart "plan-activities"])
    = [StepStart "plan-activities"] ++ new
    /\ concatenation (stdout_chunks new) = "Hello".
Proof.
  apply (proj1 (stdout_echo_is_activities
                  (sample_env None (sample_data "t" [] []) ["Hel"; "lo"])
                  [StepStart "plan-activities"]
                  {| activities := "Hello" |}
                  (snd (execute planActivities
                          (Some (forecast_of stream_down "Paris"
                                   (sample_data "t" [20%float] [10%float])))
                          (sample_env None (sample_data "t" [] []) ["Hel"; "lo"])
                          [StepStart "plan-activities"])))
               (forecast_of stream_down "Paris" (sample_data "t" [20%float] [10%float]))).
  reflexivity.
Defined.

Lemma append_empty (s t : string) :
  s +:+ t = EmptyString <-> s = EmptyString /\ t = EmptyString.
Proof.
  destruct s as [|a s]; [cbn; intuition|].
  split; [discriminate | intros [H _]; discriminate].
Qed.

Lemma concatenation_empty (chunks : list string) :
  concatenation chunks = EmptyString <-> Forall (fun c => c = EmptyString) chunks.
Proof.
  induction chunks as [|chunk rest IH].
  - split; [constructor | reflexivity].
  - change (concatenation (chunk :: rest)) with (chunk +:+ concatenation rest).
    rewrite append_empty, IH. split.
    + intros [H1 H2]. now constructor.
    + intros H. inversion H; subst. auto.
Qed.

(** The plan-activities step accepts whatever the stream delivers: it succeeds
    on an empty stream too, and the text it returns is empty exactly when
    every fragment is empty (in particular when there is none). *)
Theorem activities_empty_iff env forecast chunks log :
  agent_stream env (activitiesPrompt env forecast) = inr chunks ->
  exists r log',
    execute planActivities (Some forecast) env log = (inr r, log')
    /\ (activities r = EmptyString <-> Forall (fun c => c = EmptyString) chunks).
Proof.
  intros Hs. do 2 eexists. split; [exact (planActivities_streams _ _ _ _ Hs)|].
  cbn [activities]. apply concatenation_empty.
Qed.

Lemma activities_empty_iff_witness :
  exists r log',
    execute planActivities
      (Some (forecast_of stream_down "Paris" (sample_data "t" [20%float] [10%float])))
      (sample_env None (sample_data "t" [] []) []) []
    = (inr r, log')
    /\ (activities r = EmptyString <-> Forall (fun c => c = EmptyString) []).
Proof.
  apply (activities_empty_iff
           (sample_env None (sample_data "t" [] []) [])
           (forecast_of stream_down "Paris" (sample_data "t" [20%float] [10%float]))
           [] []).
  reflexivity.
Defined.
